(** * CopyToTcBSDBootFolder: a shallow embedding and its verified properties

    The development follows
    [Python_Samples/SCP_Samples/TcBSD/CopyToTcBSDBootFolder.py].  The script
    parses four command-line flags, probes for the [ssh] and [scp]
    executables, validates the source folder, uploads it with [scp -r] and
    finally runs one composed shell command on the device through [ssh -t].

    Layout:
    - [Py]        the fragment of Python the script relies on: exceptions,
                  the observable events, and a small writer/exception monad;
    - [Argparse]  [ArgumentParser.parse_args] specialised to the parser that
                  [main] builds;
    - [Script]    [show_usage], [run_command], [check_ssh_tools], the command
                  composer, [main] and the [__main__] guard;
    - [Remote]    the device side: files, [grep], the doas rule check as a
                  shell term, and chains of commands;
    - [Taxonomy]  the ways a run can end and the exit status of each;
    - [Flags]     which argument strings stand for which flag;
    - [Samples]   concrete machines and command lines;
    - the lemmas on [run_command], [check_ssh_tools] and [main], the
      theorems C1 to C10 that rest on them, and further properties of the
      same code, numbered from X1. *)

From Stdlib Require Import ZArith String List Ascii Bool Lia DecimalString.
Import ListNotations.

Open Scope string_scope.
Open Scope Z_scope.

Set Implicit Arguments.

(* ------------------------------------------------------------------ *)
(** ** Python fragment *)

Module Py.

(** What a Python frame can raise in this program.  [Exception] stands for
    every class deriving from [Exception] and carries [str(e)];
    [KeyboardInterrupt] and [SystemExit] derive from [BaseException] only,
    so an [except Exception] clause does not catch them. *)
Inductive exn : Type :=
| Exception (msg : string)
| KeyboardInterrupt
| SystemExit (code : Z).

Definition is_Exception (e : exn) : bool :=
  match e with
  | Exception _ => true
  | _ => false
  end.

(** What the operating system can make a library call raise: an error
    ([OSError], [ValueError], ... all below [Exception]) or the interrupt
    signal of the user. *)
Inductive fault : Type :=
| Error (msg : string)
| Interrupt.

Definition exn_of_fault (f : fault) : exn :=
  match f with
  | Error m => Exception m
  | Interrupt => KeyboardInterrupt
  end.

(** Observable actions of the process: a line written by [print] and a
    call of [subprocess.run] (the argument vector of the child and whether
    its output was captured).  Writing a line is taken to succeed, and the
    interrupt signal to arrive while the process waits in a library call,
    which is where it spends its time. *)
Inductive event : Type :=
| EPrint (line : string)
| ESpawn (argv : list string) (capture : bool).

Definition trace := list event.

Inductive result (A : Type) : Type :=
| Ok (a : A)
| Raise (e : exn).
Arguments Ok {A} a.
Arguments Raise {A} e.

(** A computation yields a result together with the events it emitted, in
    order. *)
Definition M (A : Type) : Type := (result A * trace)%type.

Definition ret {A} (a : A) : M A := (Ok a, []).

Definition bind {A B} (m : M A) (k : A -> M B) : M B :=
  match m with
  | (Ok a, t) => let (r, t') := k a in (r, (t ++ t')%list)
  | (Raise e, t) => (Raise e, t)
  end.

Definition raise {A} (e : exn) : M A := (Raise e, []).

Definition emit (ev : event) : M unit := (Ok tt, [ev]).

(** [print(line)] *)
Definition print (line : string) : M unit := emit (EPrint line).

(** [sys.exit(code)] *)
Definition sys_exit {A} (code : Z) : M A := raise (SystemExit code).

(** [try: m  except <classes accepted by catches> as e: handler e] *)
Definition try_except {A} (m : M A) (catches : exn -> bool)
           (handler : exn -> M A) : M A :=
  match m with
  | (Ok a, t) => (Ok a, t)
  | (Raise e, t) =>
      if catches e
      then let (r, t') := handler e in (r, (t ++ t')%list)
      else (Raise e, t)
  end.

(** [str(n)] for an [int]. *)
Definition str_int (n : Z) : string := NilZero.string_of_int (Z.to_int n).

End Py.

Import Py.

Notation "x <- m ;; k" := (bind m (fun x => k))
  (at level 61, m at next level, right associativity).
Notation "m ;;; k" := (bind m (fun _ => k))
  (at level 61, right associativity).

(* ------------------------------------------------------------------ *)
(** ** The argument parser

    [main] builds an [argparse.ArgumentParser] with the automatic
    [-h/--help] action and four options: [--source-path] and
    [--remote-host] (required, one value each), [--restart] (a
    [store_true] flag) and [--username] (one value, default
    ["Administrator"]).  [parse_args] below is CPython 3.11's
    [ArgumentParser.parse_args] specialised to that parser: prefix character
    [-], abbreviations allowed, no positional arguments, no option that
    looks like a negative number.  Strings are byte strings, so the [\d] of
    argparse's negative-number pattern ranges over the ASCII digits.  The
    usage and help texts that argparse writes are not recorded.  One case
    is not followed: for the separator [--] glued to a flag by [=]
    argparse keeps no value and stores an empty list, where [store] below
    keeps the string. *)

Module Argparse.

Record Namespace : Type := {
  source_path : string;
  remote_host : string;
  restart : bool;
  username : string
}.

Inductive action : Type := Help | SourcePath | RemoteHost | Restart | Username.

(** [parser._option_string_actions], in registration order. *)
Definition option_strings : list (string * action) :=
  [ ("-h", Help); ("--help", Help);
    ("--source-path", SourcePath); ("--remote-host", RemoteHost);
    ("--restart", Restart); ("--username", Username) ].

(** [nargs]: [None] (one value) for the three [store] actions, [0] for
    [store_true] and [help]. *)
Definition takes_value (a : action) : bool :=
  match a with
  | SourcePath | RemoteHost | Username => true
  | Help | Restart => false
  end.

Fixpoint lookup (s : string) (l : list (string * action)) : option action :=
  match l with
  | [] => None
  | (o, a) :: l' => if String.eqb s o then Some a else lookup s l'
  end.

(** [s.split('=', 1)] when ['=' in s]. *)
Fixpoint split_eq (s : string) : option (string * string) :=
  match s with
  | EmptyString => None
  | String c r =>
      if Ascii.eqb c "="%char then Some (EmptyString, r)
      else match split_eq r with
           | Some (l, r') => Some (String c l, r')
           | None => None
           end
  end.

Definition is_digit (c : ascii) : bool :=
  (48 <=? nat_of_ascii c)%nat && (nat_of_ascii c <=? 57)%nat.

Fixpoint all_digits (s : string) : bool :=
  match s with
  | EmptyString => true
  | String c r => is_digit c && all_digits r
  end.

Definition nonempty (s : string) : bool :=
  match s with EmptyString => false | String _ _ => true end.

(** [s] up to its first ['.'] and what follows it. *)
Fixpoint split_dot (s : string) : option (string * string) :=
  match s with
  | EmptyString => None
  | String c r =>
      if Ascii.eqb c "."%char then Some (EmptyString, r)
      else match split_dot r with
           | Some (l, r') => Some (String c l, r')
           | None => None
           end
  end.

(** Drop one final newline: [$] also matches just before it. *)
Fixpoint chomp (s : string) : string :=
  match s with
  | EmptyString => EmptyString
  | String c EmptyString => if Ascii.eqb c "010"%char then EmptyString else s
  | String c r => String c (chomp r)
  end.

(** [_negative_number_matcher]: [^-\d+$|^-\d*\.\d+$]. *)
Definition negative_number (s : string) : bool :=
  match s with
  | String "-"%char r =>
      let r := chomp r in
      (nonempty r && all_digits r)
      || match split_dot r with
         | Some (d1, d2) => all_digits d1 && nonempty d2 && all_digits d2
         | None => false
         end
  | _ => false
  end.

Fixpoint contains_space (s : string) : bool :=
  match s with
  | EmptyString => false
  | String c r => Ascii.eqb c " "%char || contains_space r
  end.

(** The pattern letter of an argument string: ['A'] for an argument,
    ['O'] for an option string, with the action it selects (none for an
    unknown option), whether the option string is a single-dash one, and
    the explicit argument glued to it, if any. *)
Inductive token_class : Type :=
| TokA
| TokO (a : option action) (short : bool) (explicit : option string)
| Ambiguous.

(** [_get_option_tuples]. *)
Definition option_tuples (s : string) : list token_class :=
  if String.prefix "--" s then
    let (pre, explicit) :=
      match split_eq s with
      | Some (l, r) => (l, Some r)
      | None => (s, None)
      end in
    map (fun oa => TokO (Some (snd oa)) false explicit)
        (filter (fun oa => String.prefix pre (fst oa)) option_strings)
  else if String.prefix "-h" s then
    [TokO (Some Help) true (Some (substring 2 (String.length s - 2) s))]
  else [].

(** [_parse_optional]. *)
Definition classify (s : string) : token_class :=
  match s with
  | EmptyString => TokA
  | String c rest =>
      if negb (Ascii.eqb c "-"%char) then TokA
      else match lookup s option_strings with
           | Some a => TokO (Some a) (String.eqb s "-h") None
           | None =>
               match rest with
               | EmptyString => TokA
               | String _ _ =>
                   let exact :=
                     match split_eq s with
                     | Some (l, r) =>
                         match lookup l option_strings with
                         | Some a => Some (TokO (Some a) (String.eqb l "-h") (Some r))
                         | None => None
                         end
                     | None => None
                     end in
                   match exact with
                   | Some t => t
                   | None =>
                       match option_tuples s with
                       | [t] => t
                       | _ :: _ :: _ => Ambiguous
                       | [] =>
                           if negative_number s then TokA
                           else if contains_space s then TokA
                           else TokO None false None
                       end
                   end
               end
           end
  end.

(** The pass that computes the pattern raises the ambiguity error before
    any action is taken; it stops classifying at the first ["--"]. *)
Fixpoint has_ambiguous (argv : list string) : bool :=
  match argv with
  | [] => false
  | s :: rest =>
      if String.eqb s "--" then false
      else match classify s with
           | Ambiguous => true
           | _ => has_ambiguous rest
           end
  end.

Record pstate : Type := {
  seen_source : option string;
  seen_host : option string;
  seen_restart : bool;
  seen_user : string;
  extras : bool
}.

Definition initial : pstate :=
  {| seen_source := None; seen_host := None; seen_restart := false;
     seen_user := "Administrator"; extras := false |}.

Definition with_extras (st : pstate) : pstate :=
  {| seen_source := seen_source st; seen_host := seen_host st;
     seen_restart := seen_restart st; seen_user := seen_user st;
     extras := true |}.

(** [take_action] for the [store] and [store_true] actions. *)
Definition store (a : action) (v : string) (st : pstate) : pstate :=
  match a with
  | SourcePath =>
      {| seen_source := Some v; seen_host := seen_host st;
         seen_restart := seen_restart st; seen_user := seen_user st;
         extras := extras st |}
  | RemoteHost =>
      {| seen_source := seen_source st; seen_host := Some v;
         seen_restart := seen_restart st; seen_user := seen_user st;
         extras := extras st |}
  | Username =>
      {| seen_source := seen_source st; seen_host := seen_host st;
         seen_restart := seen_restart st; seen_user := v;
         extras := extras st |}
  | Restart =>
      {| seen_source := seen_source st; seen_host := seen_host st;
         seen_restart := true; seen_user := seen_user st;
         extras := extras st |}
  | Help => st
  end.

Fixpoint all_h (s : string) : bool :=
  match s with
  | EmptyString => true
  | String c r => Ascii.eqb c "h"%char && all_h r
  end.

(** An argument string that an option may take as its value: pattern
    letter ['A'], which the separator ["--"] does not have. *)
Definition is_argument (s : string) : bool :=
  negb (String.eqb s "--")
  && match classify s with TokA => true | _ => false end.

(** The consuming loop of [_parse_known_args]: [inr code] when an action
    or an error leaves through [parser.exit(code)]. *)
Fixpoint consume (argv : list string) (st : pstate) : pstate + Z :=
  match argv with
  | [] => inl st
  | s :: rest =>
      if String.eqb s "--" then inl (with_extras st)
      else
        match classify s with
        | TokA => consume rest (with_extras st)
        | Ambiguous => inr 2
        | TokO None _ _ => consume rest (with_extras st)
        | TokO (Some a) short (Some e) =>
            if takes_value a then consume rest (store a e st)
            else if short && nonempty e && all_h e then inr 0
            else inr 2
        | TokO (Some a) _ None =>
            if takes_value a then
              match rest with
              | v :: rest' =>
                  if is_argument v then consume rest' (store a v st)
                  else inr 2
              | [] => inr 2
              end
            else
              match a with
              | Help => inr 0
              | _ => consume rest (store a EmptyString st)
              end
        end
  end.

Inductive outcome : Type :=
| Parsed (ns : Namespace)
| Exit (code : Z).

Definition parse (argv : list string) : outcome :=
  if has_ambiguous argv then Exit 2
  else match consume argv initial with
       | inr code => Exit code
       | inl st =>
           match seen_source st, seen_host st with
           | Some src, Some host =>
               if extras st then Exit 2
               else Parsed {| source_path := src; remote_host := host;
                              restart := seen_restart st;
                              username := seen_user st |}
           | _, _ => Exit 2
           end
       end.

(** [parser.parse_args()]: [parser.exit] is [sys.exit]. *)
Definition parse_args (argv : list string) : M Namespace :=
  match parse argv with
  | Parsed ns => ret ns
  | Exit code => sys_exit code
  end.

End Argparse.

(* ------------------------------------------------------------------ *)
(** ** The script *)

Module Script.

Import Argparse.

(** *** The operating system

    What a blocking library call gives back: a value, or an exception
    raised inside the call. *)
Inductive answer (A : Type) : Type :=
| Returns (a : A)
| Raises (f : fault).
Arguments Returns {A} a.
Arguments Raises {A} f.

Definition lift {A} (r : answer A) : M A :=
  match r with
  | Returns a => ret a
  | Raises f => raise (exn_of_fault f)
  end.

(** [subprocess.CompletedProcess]; [stdout] and [stderr] are only
    meaningful when the output was captured. *)
Record CompletedProcess : Type := {
  returncode : Z;
  stdout : string;
  stderr : string
}.

(** The machine the script runs on.  [subprocess_run argv capture] is
    [subprocess.run(argv, shell=False, check=False)] with or without
    [capture_output=True, text=True]; the four [path_] fields are
    [pathlib]'s [str(Path(s))], [Path(s).exists()], [Path(s).resolve()]
    (as the string of the resolved path) and the [.name] of a resolved
    path.  The script starts at most four children, with four different
    argument vectors, and asks each question about the path once, so
    answers that depend on the question alone lose nothing. *)
Record world : Type := {
  subprocess_run : list string -> bool -> answer CompletedProcess;
  path_str : string -> string;
  path_exists : string -> answer bool;
  path_resolve : string -> answer string;
  path_name : string -> string
}.

Definition nl : string := String "010"%char EmptyString.
Definition dq : string := String "034"%char EmptyString.

(** [str(e)] *)
Definition exn_str (e : exn) : string :=
  match e with
  | Exception msg => msg
  | KeyboardInterrupt => EmptyString
  | SystemExit code => str_int code
  end.

(** *** [show_usage] *)
Definition usage_lines : list string :=
  [ nl ++ "Usage Examples:";
    "  python CopyToTcBSDBootFolder.py --source-path 'C:\Path\To\TwinCAT OS (x64)' --remote-host 192.168.1.100";
    "  python CopyToTcBSDBootFolder.py --source-path '/path/to/Boot' --remote-host 192.168.1.100 --restart";
    "  python CopyToTcBSDBootFolder.py --source-path './xyz' --remote-host tcbsd.local --username myuser --restart";
    EmptyString ].

Definition show_usage : M unit :=
  print (nl ++ "Usage Examples:") ;;;
  print "  python CopyToTcBSDBootFolder.py --source-path 'C:\Path\To\TwinCAT OS (x64)' --remote-host 192.168.1.100" ;;;
  print "  python CopyToTcBSDBootFolder.py --source-path '/path/to/Boot' --remote-host 192.168.1.100 --restart" ;;;
  print "  python CopyToTcBSDBootFolder.py --source-path './xyz' --remote-host tcbsd.local --username myuser --restart" ;;;
  print EmptyString.

(** *** [run_command]

    Both branches of the [if capture_output] call [subprocess.run] on the
    same command; the [except Exception] clause covers the whole body. *)
Definition run_command (w : world) (command : list string)
           (capture_output : bool) : M (Z * string * string) :=
  try_except
    (emit (ESpawn command capture_output) ;;;
     result <- lift (subprocess_run w command capture_output) ;;
     if capture_output
     then ret (returncode result, stdout result, stderr result)
     else ret (returncode result, EmptyString, EmptyString))
    is_Exception
    (fun e => ret (1, EmptyString, exn_str e)).

Definition code_of (r : Z * string * string) : Z := fst (fst r).
Definition err_of (r : Z * string * string) : string := snd r.

(** [x in (a, b)] *)
Definition in_pair (x a b : Z) : bool := (x =? a) || (x =? b).

(** *** [check_ssh_tools] *)
Definition ssh_probe : list string := ["ssh"; "-V"].
Definition scp_probe : list string := ["scp"; "-h"].

Definition ssh_diagnostic : string :=
  "Error: SSH client not found. Install OpenSSH.".
Definition scp_diagnostic : string :=
  "Error: SCP not found. Install OpenSSH.".

Definition check_ssh_tools (w : world) : M bool :=
  r_ssh <- run_command w ssh_probe true ;;
  let ssh_ok := in_pair (code_of r_ssh) 0 255 in
  r_scp <- run_command w scp_probe true ;;
  let scp_ok := in_pair (code_of r_scp) 0 1 in
  if negb ssh_ok then
    print ssh_diagnostic ;;;
    ret false
  else if negb scp_ok then
    print scp_diagnostic ;;;
    ret false
  else ret true.

(** *** The remote command composer *)
Definition final_dest : string := "/usr/local/etc/TwinCAT/3.1/Boot".

(** The owner and group that the ownership step compares with and
    sets; in the source they are spelled out inside the string. *)
Definition boot_owner : string := "Administrator".
Definition boot_group : string := "wheel".

Definition mkdir_cmd : string :=
  "if [ ! -d '" ++ final_dest ++ "' ]; then "
  ++ "doas mkdir -p '" ++ final_dest ++ "'; fi".

Definition ownership_cmd : string :=
  "if [ " ++ dq ++ "$(stat -f '%Su' '" ++ final_dest ++ "')" ++ dq
    ++ " != '" ++ boot_owner ++ "' ] || "
  ++ "[ " ++ dq ++ "$(stat -f '%Sg' '" ++ final_dest ++ "')" ++ dq
    ++ " != '" ++ boot_group ++ "' ]; then "
  ++ "doas chown -R " ++ boot_owner ++ ":" ++ boot_group
    ++ " '" ++ final_dest ++ "'; fi".

Definition chmod_cmd : string :=
  "if [ ! -w '" ++ final_dest ++ "' ]; then "
  ++ "doas chmod -R u+rwxX '" ++ final_dest ++ "'; fi".

Definition copy_cmd (folder : string) : string :=
  "cd ~/" ++ folder ++ " && cp -R ./* '" ++ final_dest ++ "/'".

Definition cleanup_cmd (folder : string) : string :=
  "cd ~ && rm -rf '" ++ folder ++ "'".

(** The list literal [cmds = [...]]. *)
Definition base_cmds (folder : string) : list string :=
  [ "echo 'Creating Boot directory if it does not exist...'";
    mkdir_cmd;
    "echo 'Checking and fixing Boot folder ownership if needed...'";
    ownership_cmd;
    "echo 'Checking and fixing Boot folder write permission if needed...'";
    chmod_cmd;
    "echo 'Copying files...'";
    copy_cmd folder;
    "echo 'Cleaning up temp...'";
    cleanup_cmd folder ].

Definition doas_conf : string := "/usr/local/etc/doas.conf".

(** The line of [doas.conf] that lets [user] run [TcSysExe.exe]. *)
Definition doas_rule (user : string) : string :=
  "permit nopass " ++ user ++ " cmd TcSysExe.exe".

Definition doas_rule_cmd (user : string) : string :=
  "if ! grep -q '" ++ doas_rule user ++ "' " ++ doas_conf
    ++ " 2>/dev/null; then "
  ++ "echo 'Adding doas rule for TcSysExe.exe...' && "
  ++ "echo '" ++ doas_rule user ++ "' | doas tee -a " ++ doas_conf ++ "; "
  ++ "else echo 'doas rule for TcSysExe.exe already exists'; fi".

Definition restart_cmd : string := "doas TcSysExe.exe --run".
Definition mode_echo : string := "echo 'Mode:'".
Definition mode_cmd : string := "TcSysExe.exe --mode".
Definition skip_notice : string := "echo 'Skipping restart (use --restart)'".

Definition restart_cmds (user : string) : list string :=
  [ "echo 'Checking doas configuration for TcSysExe.exe...'";
    doas_rule_cmd user;
    "echo 'Restarting TwinCAT...'";
    restart_cmd;
    mode_echo;
    mode_cmd ].

Definition skip_cmds : list string :=
  [ skip_notice; mode_echo; mode_cmd ].

(** [cmds] once the [if args.restart: ... else: ...] has extended it. *)
Definition cmds (folder : string) (args : Namespace) : list string :=
  (base_cmds folder
   ++ (if restart args then restart_cmds (username args) else skip_cmds))%list.

(** [" && ".join(cmds)] *)
Definition full (folder : string) (args : Namespace) : string :=
  String.concat " && " (cmds folder args).

Definition temp_dest (args : Namespace) : string :=
  username args ++ "@" ++ remote_host args ++ ":~/".

Definition ssh_login (args : Namespace) : string :=
  username args ++ "@" ++ remote_host args.

Definition scp_argv (source : string) (args : Namespace) : list string :=
  ["scp"; "-r"; source; temp_dest args].

Definition ssh_argv (folder : string) (args : Namespace) : list string :=
  ["ssh"; "-t"; ssh_login args; full folder args].

(** *** [main] *)
Definition banner : string :=
  nl ++ "=== TwinCAT Boot Folder Copy Script ===" ++ nl.

(** [f"Error: '{source}' not found"] *)
Definition source_error (w : world) (args : Namespace) : string :=
  "Error: '" ++ path_str w (source_path args) ++ "' not found".

Definition cancelled : string := nl ++ "Cancelled by user.".
Definition success : string := nl ++ "=== Success ===".

Definition main (w : world) (argv : list string) : M unit :=
  args <- parse_args argv ;;
  print banner ;;;
  tools <- check_ssh_tools w ;;
  (if negb tools then sys_exit 1 else ret tt) ;;;
  found <- lift (path_exists w (source_path args)) ;;
  (if negb found then
     print (source_error w args) ;;;
     show_usage ;;;
     sys_exit 1
   else ret tt) ;;;
  source <- lift (path_resolve w (source_path args)) ;;
  let folder := path_name w source in
  print "Configuration:" ;;;
  print ("  Source:        " ++ source) ;;;
  print ("  Remote host:   " ++ remote_host args) ;;;
  print ("  SSH user:      " ++ username args) ;;;
  print ("  Restart flag:  " ++ (if restart args then "Yes" else "No")) ;;;
  print ("  Destination:   /usr/local/etc/TwinCAT/3.1/Boot" ++ nl) ;;;
  print "1) Uploading to remote temp..." ;;;
  up <- run_command w (scp_argv source args) false ;;
  (if negb (code_of up =? 0) then
     print ("SCP failed (" ++ str_int (code_of up) ++ "): " ++ err_of up) ;;;
     sys_exit 1
   else ret tt) ;;;
  print "2) Setting up Boot directory and copying files..." ;;;
  remote <- run_command w (ssh_argv folder args) false ;;
  if code_of remote =? 0 then
    print success ;;;
    print "Boot folder updated (created and configured as needed)."
  else
    print (nl ++ "Error: Remote step failed (exit "
           ++ str_int (code_of remote) ++ ")") ;;;
    sys_exit 1.

(** *** The [__main__] guard *)
Definition handled (e : exn) : bool :=
  match e with
  | KeyboardInterrupt | Exception _ => true
  | SystemExit _ => false
  end.

Definition script (w : world) (argv : list string) : M unit :=
  try_except (main w argv) handled
    (fun e =>
       match e with
       | KeyboardInterrupt =>
           print cancelled ;;; sys_exit 130
       | Exception msg =>
           print (nl ++ "Unexpected error: " ++ msg) ;;; sys_exit 1
       | SystemExit code => raise e
       end).

(** The status the interpreter hands to the operating system: [0] when
    the module body ends, the argument of an uncaught [SystemExit]; an
    uncaught exception ends the interpreter with [1], an uncaught
    [KeyboardInterrupt] with [130]. *)
Definition exit_status (m : M unit) : Z :=
  match fst m with
  | Ok _ => 0
  | Raise (SystemExit code) => code
  | Raise (Exception _) => 1
  | Raise KeyboardInterrupt => 130
  end.

Definition events (m : M unit) : trace := snd m.

(** The argument vectors of the child processes of a trace, in order. *)
Fixpoint children (t : trace) : list (list string) :=
  match t with
  | [] => []
  | ESpawn argv _ :: t' => argv :: children t'
  | EPrint _ :: t' => children t'
  end.

Definition printed (line : string) (m : M unit) : Prop :=
  In (EPrint line) (events m).

Definition shows_usage (m : M unit) : Prop :=
  forall line, In line usage_lines -> printed line m.

(** Some child of the run executes [tool]. *)
Definition invokes (tool : string) (m : M unit) : Prop :=
  exists rest, In (tool :: rest) (children (events m)).

End Script.

(* ------------------------------------------------------------------ *)
(** ** The device side

    What the composed command does once [ssh] hands it to the shell of the
    device, as far as the doas rule step and the chaining of the steps go:
    files as the bytes in them, [grep] on basic regular expressions, the
    doas rule step as a term of a small shell fragment whose rendering is
    the very string the script composes, and lists of commands chained by
    [&&] and [||]. *)

Module Remote.

Import Script.

(** The bytes of each file of the device; a missing file is empty ([grep]
    fails on it, its complaint hidden by [2>/dev/null], and [tee -a]
    creates it). *)
Definition files := string -> string.

(** [tee -a file]: what arrives on standard input is added at the end. *)
Definition append_bytes (fs : files) (file text : string) : files :=
  fun f => if String.eqb f file then fs f ++ text else fs f.

(** The lines of a text as [grep] reads them: the pieces between
    newlines, and what follows the last newline if anything does. *)
Fixpoint lines_from (s cur : string) : list string :=
  match s with
  | EmptyString =>
      match cur with
      | EmptyString => []
      | String _ _ => [cur]
      end
  | String c r =>
      if Ascii.eqb c "010"%char then cur :: lines_from r EmptyString
      else lines_from r (cur ++ String c EmptyString)
  end.

Definition lines (s : string) : list string := lines_from s EmptyString.

(** *** Basic regular expressions

    [grep] without [-F] reads its pattern as a basic regular expression.
    The fragment below is the one a pattern
    [permit nopass USER cmd TcSysExe.exe] stays in as long as [USER] holds
    no backslash, bracket or quote: a character stands for itself, [.] for
    any character, and [*] lets the item before it repeat, zero times
    included.  The anchors [^] and [$] are ordinary characters here, since
    the pattern neither starts nor ends inside [USER]. *)
Inductive atom : Type :=
| AnyChar
| Lit (c : ascii).

(** An atom and whether a [*] follows it. *)
Definition item : Type := (atom * bool)%type.

(** The items of a pattern; [pending] is the item read last, which a [*]
    still to come would change.  A [*] with nothing before it is an
    ordinary character. *)
Fixpoint scan (pattern : string) (pending : option item) : list item :=
  match pattern with
  | EmptyString =>
      match pending with
      | Some i => [i]
      | None => []
      end
  | String c r =>
      if Ascii.eqb c "*"%char then
        match pending with
        | Some (a, _) => scan r (Some (a, true))
        | None => scan r (Some (Lit c, false))
        end
      else
        let a := if Ascii.eqb c "."%char then AnyChar else Lit c in
        match pending with
        | Some i => i :: scan r (Some (a, false))
        | None => scan r (Some (a, false))
        end
  end.

Definition atom_ok (a : atom) (c : ascii) : bool :=
  match a with
  | AnyChar => true
  | Lit x => Ascii.eqb x c
  end.

(** Does a beginning of [s] match the items? *)
Fixpoint match_here (its : list item) (s : string) : bool :=
  match its with
  | [] => true
  | (a, false) :: r =>
      match s with
      | String c s' => atom_ok a c && match_here r s'
      | EmptyString => false
      end
  | (a, true) :: r =>
      (fix star (s : string) : bool :=
         match_here r s
         || match s with
            | String c s' => atom_ok a c && star s'
            | EmptyString => false
            end) s
  end.

(** Does some part of [s] match the items? *)
Fixpoint match_anywhere (its : list item) (s : string) : bool :=
  match_here its s
  || match s with
     | String _ s' => match_anywhere its s'
     | EmptyString => false
     end.

(** [grep pattern] selects [line]. *)
Definition grep_bre (pattern line : string) : bool :=
  match_anywhere (scan pattern None) line.

(** *** The doas rule step *)
Inductive sh : Type :=
| Echo (text : string)
| GrepQuiet (pattern file : string)
| EchoDoasTee (line file : string)
| Not (c : sh)
| AndThen (c1 c2 : sh)
| IfThenElse (c t e : sh).

Fixpoint render (c : sh) : string :=
  match c with
  | Echo text => "echo '" ++ text ++ "'"
  | GrepQuiet pattern file =>
      "grep -q '" ++ pattern ++ "' " ++ file ++ " 2>/dev/null"
  | EchoDoasTee line file =>
      "echo '" ++ line ++ "' | doas tee -a " ++ file
  | Not c => "! " ++ render c
  | AndThen c1 c2 => render c1 ++ " && " ++ render c2
  | IfThenElse c t e =>
      "if " ++ render c ++ "; then " ++ render t
      ++ "; else " ++ render e ++ "; fi"
  end.

Definition doas_rule_check (user : string) : sh :=
  IfThenElse
    (Not (GrepQuiet (doas_rule user) doas_conf))
    (AndThen (Echo "Adding doas rule for TcSysExe.exe...")
             (EchoDoasTee (doas_rule user) doas_conf))
    (Echo "doas rule for TcSysExe.exe already exists").

Section Semantics.

(** Does [doas] let the login user run [tee]? *)
Variable doas_permits : bool.

(** Exit status ([true] for 0) and the files afterwards. *)
Fixpoint exec (c : sh) (fs : files) : bool * files :=
  match c with
  | Echo _ => (true, fs)
  | GrepQuiet pattern file =>
      (existsb (grep_bre pattern) (lines (fs file)), fs)
  | EchoDoasTee line file =>
      if doas_permits then (true, append_bytes fs file (line ++ nl))
      else (false, fs)
  | Not c => let (ok, fs') := exec c fs in (negb ok, fs')
  | AndThen c1 c2 =>
      let (ok, fs') := exec c1 fs in
      if ok then exec c2 fs' else (false, fs')
  | IfThenElse c t e =>
      let (ok, fs') := exec c fs in
      if ok then exec t fs' else exec e fs'
  end.

(** Running a command [n] times in a row. *)
Fixpoint repeat_exec (n : nat) (c : sh) (fs : files) : files :=
  match n with
  | O => fs
  | S n' => repeat_exec n' c (snd (exec c fs))
  end.

End Semantics.

(** *** Lists of commands chained by [&&] and [||]

    The shell reads [c0 op1 c1 op2 c2 ...] from left to right, the two
    operators having the same precedence: after [&&] the next command runs
    when the status so far is 0, after [||] when it is not, and a command
    that does not run leaves the status as it is. *)
Inductive connective : Type :=
| AndIf
| OrIf.

Definition and_or : Type := (string * list (connective * string))%type.

Definition render_connective (op : connective) : string :=
  match op with
  | AndIf => " && "
  | OrIf => " || "
  end.

Fixpoint render_rest (l : list (connective * string)) : string :=
  match l with
  | [] => EmptyString
  | (op, c) :: r => render_connective op ++ c ++ render_rest r
  end.

Definition render_and_or (l : and_or) : string :=
  fst l ++ render_rest (snd l).

Section AndOr.

Variable D : Type.
Variable sem : string -> D -> bool * D.

(** The status so far, the state, and the commands started so far. *)
Fixpoint run_rest (l : list (connective * string)) (ok : bool) (d : D)
         (ran : list string) : bool * D * list string :=
  match l with
  | [] => (ok, d, ran)
  | (op, c) :: r =>
      if match op with AndIf => ok | OrIf => negb ok end
      then let (ok', d') := sem c d in run_rest r ok' d' (ran ++ [c])%list
      else run_rest r ok d ran
  end.

Definition run_and_or (l : and_or) (d : D) : bool * D * list string :=
  let (ok, d') := sem (fst l) d in run_rest (snd l) ok d' [fst l].

End AndOr.

End Remote.

Import Argparse Script Remote.

(* ------------------------------------------------------------------ *)
(** ** How a run ends

    The error taxonomy of the specification (missing local tool, missing
    source path, copy failure, remote command failure, unexpected exception,
    user interrupt), with success and the two ways the argument parser can
    end the process, and the exit status that goes with each. *)

Module Taxonomy.

Inductive ending : Type :=
| Success
| HelpShown
| UsageError
| ToolsMissing
| SourceMissing
| CopyFailed
| RemoteFailed
| UnexpectedException
| UserInterrupt.

Definition status_of (e : ending) : Z :=
  match e with
  | Success | HelpShown => 0
  | UsageError => 2
  | ToolsMissing | SourceMissing | CopyFailed | RemoteFailed
  | UnexpectedException => 1
  | UserInterrupt => 130
  end.

Definition ending_of_fault (f : fault) : ending :=
  match f with
  | Error _ => UnexpectedException
  | Interrupt => UserInterrupt
  end.

(** The stages a run has behind it. *)
Definition tools_ok (w : world) : Prop :=
  fst (check_ssh_tools w) = Ok true.

Definition source_ready (w : world) (args : Namespace) (source : string) : Prop :=
  path_exists w (source_path args) = Returns true
  /\ path_resolve w (source_path args) = Returns source.

Definition uploaded (w : world) (args : Namespace) (source : string) : Prop :=
  exists up, fst (run_command w (scp_argv source args) false) = Ok up
             /\ code_of up = 0.

(** [ends w argv e]: on machine [w] the invocation [argv] ends in [e]. *)
Inductive ends (w : world) (argv : list string) : ending -> Prop :=
| ends_help :
    parse argv = Exit 0 -> ends w argv HelpShown
| ends_usage :
    parse argv = Exit 2 -> ends w argv UsageError
| ends_tools_interrupted args :
    parse argv = Parsed args ->
    fst (check_ssh_tools w) = Raise KeyboardInterrupt ->
    ends w argv UserInterrupt
| ends_tools_missing args :
    parse argv = Parsed args ->
    fst (check_ssh_tools w) = Ok false ->
    ends w argv ToolsMissing
| ends_exists_fault args f :
    parse argv = Parsed args -> tools_ok w ->
    path_exists w (source_path args) = Raises f ->
    ends w argv (ending_of_fault f)
| ends_source_missing args :
    parse argv = Parsed args -> tools_ok w ->
    path_exists w (source_path args) = Returns false ->
    ends w argv SourceMissing
| ends_resolve_fault args f :
    parse argv = Parsed args -> tools_ok w ->
    path_exists w (source_path args) = Returns true ->
    path_resolve w (source_path args) = Raises f ->
    ends w argv (ending_of_fault f)
| ends_copy_interrupted args source :
    parse argv = Parsed args -> tools_ok w -> source_ready w args source ->
    fst (run_command w (scp_argv source args) false) = Raise KeyboardInterrupt ->
    ends w argv UserInterrupt
| ends_copy_failed args source up :
    parse argv = Parsed args -> tools_ok w -> source_ready w args source ->
    fst (run_command w (scp_argv source args) false) = Ok up ->
    code_of up <> 0 ->
    ends w argv CopyFailed
| ends_remote_interrupted args source :
    parse argv = Parsed args -> tools_ok w -> source_ready w args source ->
    uploaded w args source ->
    fst (run_command w (ssh_argv (path_name w source) args) false)
    = Raise KeyboardInterrupt ->
    ends w argv UserInterrupt
| ends_remote_failed args source remote :
    parse argv = Parsed args -> tools_ok w -> source_ready w args source ->
    uploaded w args source ->
    fst (run_command w (ssh_argv (path_name w source) args) false) = Ok remote ->
    code_of remote <> 0 ->
    ends w argv RemoteFailed
| ends_success args source remote :
    parse argv = Parsed args -> tools_ok w -> source_ready w args source ->
    uploaded w args source ->
    fst (run_command w (ssh_argv (path_name w source) args) false) = Ok remote ->
    code_of remote = 0 ->
    ends w argv Success.

(** What the [__main__] guard prints for an exception it handles. *)
Definition fault_report (f : fault) : string :=
  match f with
  | Error msg => nl ++ "Unexpected error: " ++ msg
  | Interrupt => cancelled
  end.

(** The events of the tool check. *)
Definition probes (w : world) : trace := snd (check_ssh_tools w).

(** The lines [main] prints between the source check and the upload. *)
Definition configuration (source : string) (args : Namespace) : trace :=
  [ EPrint "Configuration:";
    EPrint ("  Source:        " ++ source);
    EPrint ("  Remote host:   " ++ remote_host args);
    EPrint ("  SSH user:      " ++ username args);
    EPrint ("  Restart flag:  " ++ (if restart args then "Yes" else "No"));
    EPrint ("  Destination:   /usr/local/etc/TwinCAT/3.1/Boot" ++ nl);
    EPrint "1) Uploading to remote temp..." ].

(** The trace of a run up to the moment [scp -r] comes back. *)
Definition upto_upload (w : world) (source : string)
           (args : Namespace) : trace :=
  (EPrint banner :: probes w ++ configuration source args
     ++ [ESpawn (scp_argv source args) false])%list.

(** ... and up to the moment [ssh -t] comes back. *)
Definition upto_remote (w : world) (source : string)
           (args : Namespace) : trace :=
  (upto_upload w source args
     ++ [EPrint "2) Setting up Boot directory and copying files...";
         ESpawn (ssh_argv (path_name w source) args) false])%list.

End Taxonomy.

(* ------------------------------------------------------------------ *)
(** ** Reading a command line

    Which argument strings stand for which flag, for stating what a
    successful parse says about the command line. *)

Module Flags.

Definition action_eqb (a b : action) : bool :=
  match a, b with
  | Help, Help | SourcePath, SourcePath | RemoteHost, RemoteHost
  | Restart, Restart | Username, Username => true
  | _, _ => false
  end.

(** [s] is an option string of action [a]: spelled out, abbreviated, or
    with a value glued on by [=]. *)
Definition selects (a : action) (s : string) : bool :=
  match classify s with
  | TokO (Some b) _ _ => action_eqb a b
  | _ => false
  end.

(** A value that cannot be mistaken for an option string: it is empty or
    does not start with a dash. *)
Definition plain (s : string) : bool :=
  match s with
  | EmptyString => true
  | String c _ => negb (Ascii.eqb c "-"%char)
  end.

End Flags.

(* ------------------------------------------------------------------ *)
(** ** Sample machines and invocations

    Concrete inputs on which the general statements below are
    exercised. *)

Module Samples.

Definition done (code : Z) : answer CompletedProcess :=
  Returns {| returncode := code; stdout := EmptyString; stderr := EmptyString |}.

(** A workstation in [/home/user] on which [run] decides every child
    process and [found] tells whether the source folder is there. *)
Definition machine (run : list string -> answer CompletedProcess)
           (found : bool) : world :=
  {| subprocess_run := fun argv _ => run argv;
     path_str := fun _ => "Boot";
     path_exists := fun _ => Returns found;
     path_resolve := fun _ => Returns "/home/user/Boot";
     path_name := fun _ => "Boot" |}.

(** OpenSSH installed, device reachable, every child exits with 0. *)
Definition healthy : world := machine (fun _ => done 0) true.

(** As [healthy], but the source folder is missing. *)
Definition no_source : world := machine (fun _ => done 0) false.

(** No [ssh] executable: launching it raises [FileNotFoundError]; the
    source folder is missing as well. *)
Definition no_ssh : world :=
  machine (fun argv =>
             match argv with
             | "ssh" :: _ => Raises (Error "[Errno 2] No such file or directory: 'ssh'")
             | _ => done 0
             end) false.

(** No [scp] executable: launching it raises [FileNotFoundError]. *)
Definition no_scp : world :=
  machine (fun argv =>
             match argv with
             | "scp" :: _ => Raises (Error "[Errno 2] No such file or directory: 'scp'")
             | _ => done 0
             end) true.

(** The user presses Ctrl-C while the upload is running. *)
Definition interrupted_upload : world :=
  machine (fun argv =>
             match argv with
             | "scp" :: "-r" :: _ => Raises Interrupt
             | _ => done 0
             end) true.

Definition argv_plain : list string :=
  ["--source-path"; "./Boot"; "--remote-host"; "10.0.0.5"].

Definition argv_restart : list string :=
  ["--source-path"; "./Boot"; "--remote-host"; "10.0.0.5"; "--restart"].

Definition args_plain : Namespace :=
  {| source_path := "./Boot"; remote_host := "10.0.0.5";
     restart := false; username := "Administrator" |}.

Definition args_restart : Namespace :=
  {| source_path := "./Boot"; remote_host := "10.0.0.5";
     restart := true; username := "Administrator" |}.

Definition args_myuser : Namespace :=
  {| source_path := "./xyz"; remote_host := "tcbsd.local";
     restart := true; username := "myuser" |}.

(** A device on which only [doas.conf] exists, with one unrelated rule. *)
Definition device_files : files :=
  fun f => if String.eqb f doas_conf then "permit :wheel" ++ nl
           else EmptyString.

(** A user name with a character that is special in a regular
    expression. *)
Definition argv_star : list string :=
  ["--source-path"; "./Boot"; "--remote-host"; "10.0.0.5"; "--restart";
   "--username"; "a*b"].

Definition args_star : Namespace :=
  {| source_path := "./Boot"; remote_host := "10.0.0.5";
     restart := true; username := "a*b" |}.

(** A workstation like [healthy] on which the source folder is named
    [x || true]. *)
Definition odd_folder : world :=
  {| subprocess_run := fun argv _ => done 0;
     path_str := fun _ => "x || true";
     path_exists := fun _ => Returns true;
     path_resolve := fun _ => Returns "/home/user/x || true";
     path_name := fun _ => "x || true" |}.

Definition argv_odd : list string :=
  ["--source-path"; "./x || true"; "--remote-host"; "10.0.0.5"].

Definition args_odd : Namespace :=
  {| source_path := "./x || true"; remote_host := "10.0.0.5";
     restart := false; username := "Administrator" |}.

(** The commands and operators of the instruction composed for the folder
    [x || true]: the copy step of the script is three commands of the
    list. *)
Definition reading_odd : and_or :=
  ("echo 'Creating Boot directory if it does not exist...'",
   [ (AndIf, mkdir_cmd);
     (AndIf, "echo 'Checking and fixing Boot folder ownership if needed...'");
     (AndIf, ownership_cmd);
     (AndIf, "echo 'Checking and fixing Boot folder write permission if needed...'");
     (AndIf, chmod_cmd);
     (AndIf, "echo 'Copying files...'");
     (AndIf, "cd ~/x");
     (OrIf, "true");
     (AndIf, "cp -R ./* '/usr/local/etc/TwinCAT/3.1/Boot/'");
     (AndIf, "echo 'Cleaning up temp...'");
     (AndIf, "cd ~");
     (AndIf, "rm -rf 'x || true'");
     (AndIf, skip_notice);
     (AndIf, mode_echo);
     (AndIf, mode_cmd) ]).

(** A device on which creating the Boot folder fails and every other
    command succeeds; the state counts the commands started. *)
Definition mkdir_denied (c : string) (d : nat) : bool * nat :=
  (negb (String.eqb c mkdir_cmd), S d).

(** [scp] runs and exits with status 255: the device is unreachable. *)
Definition unreachable : world :=
  machine (fun argv =>
             match argv with
             | "scp" :: "-r" :: _ => done 255
             | _ => done 0
             end) true.

End Samples.

Import Taxonomy Flags Samples.

(* ------------------------------------------------------------------ *)
(** ** [run_command] *)

(** The three ways a call of [run_command] can go. *)
Lemma run_command_cases (w : world) (command : list string) (capture : bool) :
  run_command w command capture =
  match subprocess_run w command capture with
  | Returns p =>
      (Ok (returncode p,
           if capture then stdout p else EmptyString,
           if capture then stderr p else EmptyString),
       [ESpawn command capture])
  | Raises (Error msg) => (Ok (1, EmptyString, msg), [ESpawn command capture])
  | Raises Interrupt => (Raise KeyboardInterrupt, [ESpawn command capture])
  end.
Proof.
  unfold run_command.
  destruct (subprocess_run w command capture) as [p | [msg | ]];
    destruct capture; reflexivity.
Qed.

(** A call of [run_command] starts exactly one child, the one asked for. *)
Lemma run_command_events (w : world) (command : list string) (capture : bool) :
  snd (run_command w command capture) = [ESpawn command capture].
Proof.
  rewrite run_command_cases.
  destruct (subprocess_run w command capture) as [p | [msg | ]]; reflexivity.
Qed.

(** It hands back a triple or lets the interrupt through. *)
Lemma run_command_result (w : world) (command : list string) (capture : bool) :
  (exists r, fst (run_command w command capture) = Ok r)
  \/ fst (run_command w command capture) = Raise KeyboardInterrupt.
Proof.
  rewrite run_command_cases.
  destruct (subprocess_run w command capture) as [p | [msg | ]]; simpl; eauto.
Qed.

(** C10, as amended.  [run_command] returns [(returncode, stdout, stderr)]
    of the finished child (the two texts are empty when the output was not
    captured); when [subprocess.run] raises an exception that derives from
    [Exception] it returns [(1, "", str(e))] and nothing propagates; a
    [KeyboardInterrupt] raised during the call is not caught by the
    [except Exception] clause and reaches the caller. *)
Theorem run_command_catches_Exception_only
        (w : world) (command : list string) (capture : bool) :
  (forall p, subprocess_run w command capture = Returns p ->
     fst (run_command w command capture)
     = Ok (returncode p,
           if capture then stdout p else EmptyString,
           if capture then stderr p else EmptyString))
  /\ (forall msg, subprocess_run w command capture = Raises (Error msg) ->
        fst (run_command w command capture) = Ok (1, EmptyString, msg))
  /\ (subprocess_run w command capture = Raises Interrupt ->
        fst (run_command w command capture) = Raise KeyboardInterrupt).
Proof.
  rewrite run_command_cases.
  repeat split; intros; match goal with H : _ = _ |- _ => rewrite H end;
    reflexivity.
Qed.

Lemma run_command_catches_Exception_only_witness :
  fst (run_command healthy scp_probe true) = Ok (0, EmptyString, EmptyString)
  /\ fst (run_command no_ssh ssh_probe true)
     = Ok (1, EmptyString, "[Errno 2] No such file or directory: 'ssh'")
  /\ fst (run_command interrupted_upload (scp_argv "/home/user/Boot" args_plain) false)
     = Raise KeyboardInterrupt.
Proof.
  split; [| split].
  - apply (proj1 (run_command_catches_Exception_only healthy scp_probe true)
                 {| returncode := 0; stdout := EmptyString; stderr := EmptyString |}).
    reflexivity.
  - apply (proj1 (proj2 (run_command_catches_Exception_only no_ssh ssh_probe true))).
    reflexivity.
  - apply (proj2 (proj2 (run_command_catches_Exception_only
                           interrupted_upload
                           (scp_argv "/home/user/Boot" args_plain) false))).
    reflexivity.
Defined.

(** C10, as stated, fails: when the user interrupts the upload,
    [subprocess.run] raises [KeyboardInterrupt] and [run_command] returns no
    triple at all. *)
Lemma run_command_propagates_interrupt :
  subprocess_run interrupted_upload (scp_argv "/home/user/Boot" args_plain) false
  = Raises Interrupt
  /\ ~ (exists r,
          fst (run_command interrupted_upload
                           (scp_argv "/home/user/Boot" args_plain) false)
          = Ok r).
Proof.
  split; [reflexivity |].
  intros [r H]. vm_compute in H. discriminate H.
Qed.

(* ------------------------------------------------------------------ *)
(** ** [check_ssh_tools] *)

Lemma in_pair_spec (x a b : Z) : in_pair x a b = true <-> x = a \/ x = b.
Proof.
  unfold in_pair. rewrite orb_true_iff, !Z.eqb_eq. reflexivity.
Qed.

(** The check in terms of its two probes. *)
Lemma check_ssh_tools_cases (w : world) :
  check_ssh_tools w =
  match fst (run_command w ssh_probe true) with
  | Raise e => (Raise e, [ESpawn ssh_probe true])
  | Ok r1 =>
      match fst (run_command w scp_probe true) with
      | Raise e => (Raise e, [ESpawn ssh_probe true; ESpawn scp_probe true])
      | Ok r2 =>
          if negb (in_pair (code_of r1) 0 255) then
            (Ok false, [ESpawn ssh_probe true; ESpawn scp_probe true;
                        EPrint ssh_diagnostic])
          else if negb (in_pair (code_of r2) 0 1) then
            (Ok false, [ESpawn ssh_probe true; ESpawn scp_probe true;
                        EPrint scp_diagnostic])
          else (Ok true, [ESpawn ssh_probe true; ESpawn scp_probe true])
      end
  end.
Proof.
  unfold check_ssh_tools.
  pose proof (run_command_events w ssh_probe true) as E1.
  pose proof (run_command_events w scp_probe true) as E2.
  destruct (run_command w ssh_probe true) as [[r1 | e1] t1];
    simpl in E1; subst t1; [| reflexivity].
  destruct (run_command w scp_probe true) as [[r2 | e2] t2];
    simpl in E2; subst t2; [| reflexivity].
  simpl.
  destruct (in_pair (code_of r1) 0 255), (in_pair (code_of r2) 0 1);
    reflexivity.
Qed.

(** The check starts no child other than its two probes. *)
Lemma check_ssh_tools_children (w : world) (a : list string) (cap : bool) :
  In (ESpawn a cap) (snd (check_ssh_tools w)) -> a = ssh_probe \/ a = scp_probe.
Proof.
  rewrite check_ssh_tools_cases.
  destruct (fst (run_command w ssh_probe true)) as [r1 | e1];
    [destruct (fst (run_command w scp_probe true)) as [r2 | e2];
     [destruct (negb (in_pair (code_of r1) 0 255));
      [| destruct (negb (in_pair (code_of r2) 0 1))] |] |];
    simpl; intros H;
    repeat (destruct H as [H | H]; [inversion H; auto |]);
    contradiction.
Qed.

(** The check answers or is interrupted; it raises nothing else. *)
Lemma check_ssh_tools_result (w : world) :
  (exists b, fst (check_ssh_tools w) = Ok b)
  \/ fst (check_ssh_tools w) = Raise KeyboardInterrupt.
Proof.
  rewrite check_ssh_tools_cases.
  destruct (run_command_result w ssh_probe true) as [[r1 H1] | H1];
    rewrite H1; [| right; reflexivity].
  destruct (run_command_result w scp_probe true) as [[r2 H2] | H2];
    rewrite H2; [| right; reflexivity].
  left.
  destruct (negb (in_pair (code_of r1) 0 255));
    [| destruct (negb (in_pair (code_of r2) 0 1))]; eexists; reflexivity.
Qed.

(* ------------------------------------------------------------------ *)
(** ** Traces *)

Lemma run_command_eta (w : world) (command : list string) (capture : bool) :
  run_command w command capture
  = (fst (run_command w command capture), [ESpawn command capture]).
Proof.
  rewrite <- (run_command_events w command capture). apply surjective_pairing.
Qed.

Lemma check_ssh_tools_eta (w : world) :
  check_ssh_tools w = (fst (check_ssh_tools w), probes w).
Proof.
  apply surjective_pairing.
Qed.

Lemma children_app (t1 t2 : trace) :
  children (t1 ++ t2)%list = (children t1 ++ children t2)%list.
Proof.
  induction t1 as [| [line | argv cap] t1 IH]; simpl; [| | rewrite IH]; auto.
Qed.

Lemma children_prints (lines : list string) :
  children (map EPrint lines) = [].
Proof.
  induction lines; simpl; auto.
Qed.

Lemma probes_children (w : world) (a : list string) :
  In a (children (probes w)) -> a = ssh_probe \/ a = scp_probe.
Proof.
  intros H. assert (exists cap, In (ESpawn a cap) (probes w)) as [cap Hin].
  { revert H. generalize (probes w) as t.
    induction t as [| [line | argv cap] t IH]; simpl; intros H.
    - contradiction.
    - destruct (IH H) as [cap Hc]. eauto.
    - destruct H as [H | H]; [subst; eauto |].
      destruct (IH H) as [cap' Hc]. eauto. }
  eapply check_ssh_tools_children; exact Hin.
Qed.

(* ------------------------------------------------------------------ *)
(** ** [main], stage by stage

    One lemma per way out of [main]: what the process leaves with and the
    whole trace, given how the stages before went. *)

Local Opaque run_command check_ssh_tools str_int.

Ltac evaluate :=
  cbn [bind ret raise lift print emit sys_exit try_except negb
       exn_of_fault fst snd handled show_usage].
Ltac stage H := rewrite H; evaluate.
Ltac tools H := rewrite check_ssh_tools_eta, H; evaluate.
Ltac child H := rewrite run_command_eta, H; evaluate.
Ltac enter_main := unfold script, main, parse_args.
Ltac tidy := cbn [app]; rewrite ?app_nil_r, <- ?app_assoc; cbn [app].

Lemma script_parse_exit (w : world) (argv : list string) (code : Z) :
  parse argv = Exit code ->
  script w argv = (Raise (SystemExit code), []).
Proof.
  intros Hp. enter_main. stage Hp. reflexivity.
Qed.

Lemma script_tools_interrupted (w : world) (argv : list string)
      (args : Namespace) :
  parse argv = Parsed args ->
  fst (check_ssh_tools w) = Raise KeyboardInterrupt ->
  script w argv
  = (Raise (SystemExit 130), (EPrint banner :: probes w ++ [EPrint cancelled])%list).
Proof.
  intros Hp Hc. enter_main. stage Hp. tools Hc. tidy. reflexivity.
Qed.

Lemma script_tools_missing (w : world) (argv : list string)
      (args : Namespace) :
  parse argv = Parsed args ->
  fst (check_ssh_tools w) = Ok false ->
  script w argv = (Raise (SystemExit 1), EPrint banner :: probes w).
Proof.
  intros Hp Hc. enter_main. stage Hp. tools Hc. tidy. reflexivity.
Qed.

Lemma script_exists_fault (w : world) (argv : list string)
      (args : Namespace) (f : fault) :
  parse argv = Parsed args -> tools_ok w ->
  path_exists w (source_path args) = Raises f ->
  script w argv
  = (Raise (SystemExit (status_of (ending_of_fault f))),
     (EPrint banner :: probes w ++ [EPrint (fault_report f)])%list).
Proof.
  intros Hp Hc Hx. enter_main. stage Hp. tools Hc. stage Hx.
  destruct f; evaluate; tidy; reflexivity.
Qed.

Lemma script_source_missing (w : world) (argv : list string)
      (args : Namespace) :
  parse argv = Parsed args -> tools_ok w ->
  path_exists w (source_path args) = Returns false ->
  script w argv
  = (Raise (SystemExit 1),
     (EPrint banner :: probes w
        ++ EPrint (source_error w args) :: map EPrint usage_lines)%list).
Proof.
  intros Hp Hc Hx. enter_main. stage Hp. tools Hc. stage Hx.
  tidy. reflexivity.
Qed.

Lemma script_resolve_fault (w : world) (argv : list string)
      (args : Namespace) (f : fault) :
  parse argv = Parsed args -> tools_ok w ->
  path_exists w (source_path args) = Returns true ->
  path_resolve w (source_path args) = Raises f ->
  script w argv
  = (Raise (SystemExit (status_of (ending_of_fault f))),
     (EPrint banner :: probes w ++ [EPrint (fault_report f)])%list).
Proof.
  intros Hp Hc Hx Hr. enter_main. stage Hp. tools Hc. stage Hx. stage Hr.
  destruct f; evaluate; tidy; reflexivity.
Qed.

Lemma script_copy_interrupted (w : world) (argv : list string)
      (args : Namespace) (source : string) :
  parse argv = Parsed args -> tools_ok w -> source_ready w args source ->
  fst (run_command w (scp_argv source args) false) = Raise KeyboardInterrupt ->
  script w argv
  = (Raise (SystemExit 130),
     (upto_upload w source args ++ [EPrint cancelled])%list).
Proof.
  intros Hp Hc [Hx Hr] Hu. enter_main. stage Hp. tools Hc. stage Hx.
  stage Hr. child Hu. unfold upto_upload, configuration. tidy. reflexivity.
Qed.

Lemma script_copy_failed (w : world) (argv : list string)
      (args : Namespace) (source : string) (up : Z * string * string) :
  parse argv = Parsed args -> tools_ok w -> source_ready w args source ->
  fst (run_command w (scp_argv source args) false) = Ok up ->
  code_of up <> 0 ->
  script w argv
  = (Raise (SystemExit 1),
     (upto_upload w source args
        ++ [EPrint ("SCP failed (" ++ str_int (code_of up) ++ "): "
                    ++ err_of up)])%list).
Proof.
  intros Hp Hc [Hx Hr] Hu Hcode. enter_main. stage Hp. tools Hc. stage Hx.
  stage Hr. child Hu.
  apply Z.eqb_neq in Hcode. rewrite Hcode. evaluate.
  unfold upto_upload, configuration. tidy. reflexivity.
Qed.

Lemma script_remote_interrupted (w : world) (argv : list string)
      (args : Namespace) (source : string) :
  parse argv = Parsed args -> tools_ok w -> source_ready w args source ->
  uploaded w args source ->
  fst (run_command w (ssh_argv (path_name w source) args) false)
  = Raise KeyboardInterrupt ->
  script w argv
  = (Raise (SystemExit 130),
     (upto_remote w source args ++ [EPrint cancelled])%list).
Proof.
  intros Hp Hc [Hx Hr] (up & Hu & Hcode) Hs. enter_main. stage Hp. tools Hc.
  stage Hx. stage Hr. child Hu.
  apply Z.eqb_eq in Hcode. rewrite Hcode. evaluate. child Hs.
  unfold upto_remote, upto_upload, configuration. tidy. reflexivity.
Qed.

Lemma script_remote_failed (w : world) (argv : list string)
      (args : Namespace) (source : string) (remote : Z * string * string) :
  parse argv = Parsed args -> tools_ok w -> source_ready w args source ->
  uploaded w args source ->
  fst (run_command w (ssh_argv (path_name w source) args) false) = Ok remote ->
  code_of remote <> 0 ->
  script w argv
  = (Raise (SystemExit 1),
     (upto_remote w source args
        ++ [EPrint (nl ++ "Error: Remote step failed (exit "
                    ++ str_int (code_of remote) ++ ")")])%list).
Proof.
  intros Hp Hc [Hx Hr] (up & Hu & Hcode) Hs Hrc. enter_main. stage Hp.
  tools Hc. stage Hx. stage Hr. child Hu.
  apply Z.eqb_eq in Hcode. rewrite Hcode. evaluate. child Hs.
  apply Z.eqb_neq in Hrc. rewrite Hrc. evaluate.
  unfold upto_remote, upto_upload, configuration. tidy. reflexivity.
Qed.

Lemma script_success (w : world) (argv : list string)
      (args : Namespace) (source : string) (remote : Z * string * string) :
  parse argv = Parsed args -> tools_ok w -> source_ready w args source ->
  uploaded w args source ->
  fst (run_command w (ssh_argv (path_name w source) args) false) = Ok remote ->
  code_of remote = 0 ->
  script w argv
  = (Ok tt,
     (upto_remote w source args
        ++ [EPrint success;
            EPrint "Boot folder updated (created and configured as needed)."])%list).
Proof.
  intros Hp Hc [Hx Hr] (up & Hu & Hcode) Hs Hrc. enter_main. stage Hp.
  tools Hc. stage Hx. stage Hr. child Hu.
  apply Z.eqb_eq in Hcode. rewrite Hcode. evaluate. child Hs.
  apply Z.eqb_eq in Hrc. rewrite Hrc. evaluate.
  unfold upto_remote, upto_upload, configuration. tidy. reflexivity.
Qed.

(* ------------------------------------------------------------------ *)
(** ** Exit statuses *)

(** The argument parser leaves with 0 (help) or 2 (usage error) only.  An
    option may take the next string with it, so the induction is on a
    bound of the length. *)
Lemma consume_exit_bounded (n : nat) :
  forall argv st code,
    (List.length argv <= n)%nat ->
    consume argv st = inr code -> code = 0 \/ code = 2.
Proof.
  induction n as [| n IH]; intros [| s rest] st code Hlen; simpl in *;
    try discriminate; try lia.
  assert (Hrest : forall st', consume rest st' = inr code -> code = 0 \/ code = 2)
    by (intros st'; apply IH; lia).
  destruct (String.eqb s "--"); [discriminate |].
  destruct (classify s) as [| [a |] short [e |] |]; eauto.
  - destruct (takes_value a); eauto.
    destruct (short && nonempty e && all_h e); intros H; inversion H; auto.
  - destruct (takes_value a).
    + destruct rest as [| v rest']; [intros H; inversion H; auto |].
      destruct (is_argument v); [| intros H; inversion H; auto].
      apply IH. simpl in Hlen. lia.
    + destruct a; eauto; intros H; inversion H; auto.
  - intros H; inversion H; auto.
Qed.

Lemma parse_exit (argv : list string) (code : Z) :
  parse argv = Exit code -> code = 0 \/ code = 2.
Proof.
  unfold parse. destruct (has_ambiguous argv); [intros H; inversion H; auto |].
  destruct (consume argv initial) as [st | c] eqn:Hc.
  - destruct (seen_source st), (seen_host st), (extras st);
      intros H; inversion H; auto.
  - intros H; inversion H; subst.
    eapply consume_exit_bounded; [apply Nat.le_refl | exact Hc].
Qed.

(** Every run ends in one of the ways of the taxonomy. *)
Lemma ends_total (w : world) (argv : list string) : exists e, ends w argv e.
Proof.
  destruct (parse argv) as [args | code] eqn:Hp.
  2: { destruct (parse_exit _ Hp); subst; eauto using ends. }
  destruct (check_ssh_tools_result w) as [[[|] Hc] | Hc];
    [| eauto using ends ..].
  destruct (path_exists w (source_path args)) as [[|] | f] eqn:Hx;
    [| eauto using ends ..].
  destruct (path_resolve w (source_path args)) as [source | f] eqn:Hr;
    [| eauto using ends].
  assert (Hready : source_ready w args source) by (split; assumption).
  destruct (run_command_result w (scp_argv source args) false)
    as [[up Hu] | Hu]; [| eauto using ends].
  destruct (Z.eq_dec (code_of up) 0) as [Hcode | Hcode];
    [| eauto using ends].
  assert (Hup : uploaded w args source) by (exists up; auto).
  destruct (run_command_result w (ssh_argv (path_name w source) args) false)
    as [[remote Hs] | Hs]; [| eauto using ends].
  destruct (Z.eq_dec (code_of remote) 0); eauto using ends.
Qed.

(** ... and leaves with the status of that ending. *)
Lemma ends_status (w : world) (argv : list string) (e : ending) :
  ends w argv e -> exit_status (script w argv) = status_of e.
Proof.
  intros H; destruct H.
  - erewrite script_parse_exit by eassumption. reflexivity.
  - erewrite script_parse_exit by eassumption. reflexivity.
  - erewrite script_tools_interrupted by eassumption. reflexivity.
  - erewrite script_tools_missing by eassumption. reflexivity.
  - erewrite script_exists_fault by eassumption. destruct f; reflexivity.
  - erewrite script_source_missing by eassumption. reflexivity.
  - erewrite script_resolve_fault by eassumption. destruct f; reflexivity.
  - erewrite script_copy_interrupted by eassumption. reflexivity.
  - erewrite script_copy_failed by eassumption. reflexivity.
  - erewrite script_remote_interrupted by eassumption. reflexivity.
  - erewrite script_remote_failed by eassumption. reflexivity.
  - erewrite script_success by eassumption. reflexivity.
Qed.

Lemma status_of_range (e : ending) :
  status_of e = 0 \/ status_of e = 1 \/ status_of e = 2 \/ status_of e = 130.
Proof.
  destruct e; simpl; auto.
Qed.

(** C7, as amended.  Every invocation ends in one of: success or a help
    request (exit status 0); missing tools, missing source, failed copy,
    failed remote execution or unexpected exception (1); user interrupt
    (130); a command line that the argument parser rejects (2).  The exit
    status is the one of the ending, and it is 2 only for a rejected
    command line; no invocation exits with any other status. *)
Theorem exit_status_table (w : world) (argv : list string) :
  (exists e, ends w argv e)
  /\ (forall e, ends w argv e -> exit_status (script w argv) = status_of e)
  /\ (exit_status (script w argv) = 0 \/ exit_status (script w argv) = 1
      \/ exit_status (script w argv) = 2 \/ exit_status (script w argv) = 130)
  /\ (exit_status (script w argv) = 2 <-> parse argv = Exit 2).
Proof.
  split; [apply ends_total |].
  split; [apply ends_status |].
  destruct (ends_total w argv) as [e He].
  rewrite (ends_status He).
  split; [apply status_of_range |].
  split.
  - destruct He; simpl; try discriminate; auto.
    destruct f; discriminate.
    destruct f; discriminate.
  - intros Hp. destruct He; try reflexivity; congruence.
Qed.

Lemma exit_status_table_witness :
  ends healthy argv_plain Success
  /\ exit_status (script healthy argv_plain) = 0
  /\ ends interrupted_upload argv_restart UserInterrupt
  /\ exit_status (script interrupted_upload argv_restart) = 130
  /\ ends no_ssh argv_plain ToolsMissing
  /\ exit_status (script no_ssh argv_plain) = 1.
Proof.
  assert (H1 : ends healthy argv_plain Success).
  { apply ends_success with (args := args_plain) (source := "/home/user/Boot")
                            (remote := (0, EmptyString, EmptyString));
      try reflexivity.
    - split; reflexivity.
    - exists (0, EmptyString, EmptyString). split; reflexivity. }
  assert (H2 : ends interrupted_upload argv_restart UserInterrupt).
  { apply ends_copy_interrupted with (args := args_restart)
                                     (source := "/home/user/Boot");
      try reflexivity.
    split; reflexivity. }
  assert (H3 : ends no_ssh argv_plain ToolsMissing).
  { apply ends_tools_missing with (args := args_plain); reflexivity. }
  pose proof (proj1 (proj2 (exit_status_table healthy argv_plain)) _ H1) as S1.
  pose proof (proj1 (proj2 (exit_status_table interrupted_upload argv_restart))
                    _ H2) as S2.
  pose proof (proj1 (proj2 (exit_status_table no_ssh argv_plain)) _ H3) as S3.
  exact (conj H1 (conj S1 (conj H2 (conj S2 (conj H3 S3))))).
Defined.

(** C7, as stated, fails: an invocation without the required flags is
    ended by the argument parser with status 2, which is none of 0, 1 and
    130. *)
Lemma exit_status_two_on_usage_error :
  exit_status (script healthy []) = 2
  /\ ~ (exit_status (script healthy []) = 0
        \/ exit_status (script healthy []) = 1
        \/ exit_status (script healthy []) = 130).
Proof.
  split; [reflexivity |].
  intros [H | [H | H]]; vm_compute in H; discriminate H.
Qed.

(* ------------------------------------------------------------------ *)
(** ** Child processes of a run *)

Lemma probes_when_ok (w : world) :
  tools_ok w -> probes w = [ESpawn ssh_probe true; ESpawn scp_probe true].
Proof.
  unfold tools_ok, probes. rewrite check_ssh_tools_cases.
  destruct (fst (run_command w ssh_probe true)) as [r1 | e1];
    [| discriminate].
  destruct (fst (run_command w scp_probe true)) as [r2 | e2];
    [| discriminate].
  destruct (negb (in_pair (code_of r1) 0 255)); [discriminate |].
  destruct (negb (in_pair (code_of r2) 0 1)); [discriminate |].
  reflexivity.
Qed.

Lemma probes_when_missing (w : world) :
  fst (check_ssh_tools w) = Ok false ->
  exists d, (d = ssh_diagnostic \/ d = scp_diagnostic)
            /\ probes w = [ESpawn ssh_probe true; ESpawn scp_probe true; EPrint d].
Proof.
  unfold probes. rewrite check_ssh_tools_cases.
  destruct (fst (run_command w ssh_probe true)) as [r1 | e1];
    [| discriminate].
  destruct (fst (run_command w scp_probe true)) as [r2 | e2];
    [| discriminate].
  destruct (negb (in_pair (code_of r1) 0 255)); [eauto |].
  destruct (negb (in_pair (code_of r2) 0 1)); [eauto | discriminate].
Qed.

Lemma children_upto_upload (w : world) (source : string) (args : Namespace) :
  children (upto_upload w source args)
  = (children (probes w) ++ [scp_argv source args])%list.
Proof.
  unfold upto_upload. cbn [children]. rewrite children_app. reflexivity.
Qed.

Lemma children_upto_remote (w : world) (source : string) (args : Namespace) :
  children (upto_remote w source args)
  = (children (probes w)
       ++ [scp_argv source args; ssh_argv (path_name w source) args])%list.
Proof.
  unfold upto_remote. rewrite children_app, children_upto_upload.
  rewrite <- app_assoc. reflexivity.
Qed.

(** A run that gets as far as the remote stage starts four children. *)
Lemma children_when_uploaded (w : world) (argv : list string)
      (args : Namespace) (source : string) :
  parse argv = Parsed args -> tools_ok w -> source_ready w args source ->
  uploaded w args source ->
  children (events (script w argv))
  = [ssh_probe; scp_probe; scp_argv source args;
     ssh_argv (path_name w source) args].
Proof.
  intros Hp Hc Hready Hup.
  assert (Hshape : forall tail,
             children tail = [] ->
             children (upto_remote w source args ++ tail)%list
             = [ssh_probe; scp_probe; scp_argv source args;
                ssh_argv (path_name w source) args]).
  { intros tail Htail.
    rewrite children_app, children_upto_remote, Htail, app_nil_r.
    rewrite probes_when_ok by assumption. reflexivity. }
  destruct (run_command_result w (ssh_argv (path_name w source) args) false)
    as [[remote Hs] | Hs].
  - destruct (Z.eq_dec (code_of remote) 0) as [Hz | Hz].
    + erewrite script_success by eassumption. apply Hshape. reflexivity.
    + erewrite script_remote_failed by eassumption.
      apply Hshape. reflexivity.
  - erewrite script_remote_interrupted by eassumption.
    apply Hshape. reflexivity.
Qed.

(** Whatever happens, a child of the run is one of the two probes, the
    upload or the remote execution. *)
Lemma script_children (w : world) (argv : list string) (a : list string) :
  In a (children (events (script w argv))) ->
  a = ssh_probe \/ a = scp_probe
  \/ exists args source,
       parse argv = Parsed args /\ tools_ok w /\ source_ready w args source
       /\ (a = scp_argv source args
           \/ (uploaded w args source
               /\ a = ssh_argv (path_name w source) args)).
Proof.
  assert (Hprobe : forall t, In a (children (probes w ++ t)%list) -> children t = [] ->
                        a = ssh_probe \/ a = scp_probe).
  { intros t Hin Ht. rewrite children_app, Ht, app_nil_r in Hin.
    apply (probes_children w). exact Hin. }
  destruct (ends_total w argv) as [e He]; destruct He as
      [ Hp | Hp | args Hp Hc | args Hp Hc | args f Hp Hc Hx | args Hp Hc Hx
      | args f Hp Hc Hx Hr | args source Hp Hc Hready Hu
      | args source up Hp Hc Hready Hu Hcode
      | args source Hp Hc Hready Hup Hs
      | args source remote Hp Hc Hready Hup Hs Hrc
      | args source remote Hp Hc Hready Hup Hs Hrc ].
  - erewrite script_parse_exit by eassumption. simpl. contradiction.
  - erewrite script_parse_exit by eassumption. simpl. contradiction.
  - erewrite script_tools_interrupted by eassumption. cbn [events snd children].
    intros H. destruct (Hprobe _ H eq_refl); auto.
  - erewrite script_tools_missing by eassumption. cbn [events snd children].
    intros H. apply (probes_children w) in H. tauto.
  - erewrite script_exists_fault by eassumption. cbn [events snd children].
    intros H. destruct (Hprobe _ H eq_refl); auto.
  - erewrite script_source_missing by eassumption. cbn [events snd children].
    intros H. destruct (Hprobe _ H (children_prints (_ :: usage_lines))); auto.
  - erewrite script_resolve_fault by eassumption. cbn [events snd children].
    intros H. destruct (Hprobe _ H eq_refl); auto.
  - erewrite script_copy_interrupted by eassumption. cbn [events snd].
    rewrite children_app, children_upto_upload. cbn [children].
    rewrite app_nil_r, in_app_iff. intros [H | [H | []]].
    + apply (probes_children w) in H. tauto.
    + right; right. exists args, source. auto.
  - erewrite script_copy_failed by eassumption. cbn [events snd].
    rewrite children_app, children_upto_upload. cbn [children].
    rewrite app_nil_r, in_app_iff. intros [H | [H | []]].
    + apply (probes_children w) in H. tauto.
    + right; right. exists args, source. auto.
  - erewrite children_when_uploaded by eassumption.
    intros [H | [H | [H | [H | []]]]]; auto;
      right; right; exists args, source; auto 6.
  - erewrite children_when_uploaded by eassumption.
    intros [H | [H | [H | [H | []]]]]; auto;
      right; right; exists args, source; auto 6.
  - erewrite children_when_uploaded by eassumption.
    intros [H | [H | [H | [H | []]]]]; auto;
      right; right; exists args, source; auto 6.
Qed.

(* ------------------------------------------------------------------ *)
(** ** The source check (C1) *)

(** C1, as amended.  For every invocation whose command line parses and
    whose source path does not exist: when the tool availability check
    passes, the program prints the error message, shows the usage examples
    and exits with status 1, having started no child besides the two probes
    [ssh -V] and [scp -h]; and in every case it exits with 1 (130 when the
    tool check is interrupted) and starts no child besides the two probes,
    so no transfer is attempted. *)
Theorem missing_source_no_transfer
        (w : world) (argv : list string) (args : Namespace) :
  parse argv = Parsed args ->
  path_exists w (source_path args) = Returns false ->
  (tools_ok w ->
     printed (source_error w args) (script w argv)
     /\ shows_usage (script w argv)
     /\ exit_status (script w argv) = 1
     /\ children (events (script w argv)) = [ssh_probe; scp_probe])
  /\ (exit_status (script w argv) = 1 \/ exit_status (script w argv) = 130)
  /\ (forall a, In a (children (events (script w argv))) ->
                a = ssh_probe \/ a = scp_probe).
Proof.
  intros Hp Hx.
  assert (Hok : tools_ok w ->
                script w argv
                = (Raise (SystemExit 1),
                   (EPrint banner :: probes w
                      ++ EPrint (source_error w args) :: map EPrint usage_lines)%list))
    by (intros Hc; apply script_source_missing; assumption).
  split; [| split].
  - intros Hc. rewrite (Hok Hc). unfold printed, shows_usage, printed.
    cbn [events snd exit_status fst].
    repeat split.
    + right. apply in_or_app. right. left. reflexivity.
    + intros line Hline. right. apply in_or_app. right. right.
      apply in_map. exact Hline.
    + cbn [children]. rewrite children_app, probes_when_ok by assumption.
      cbn [children app]. rewrite children_prints. reflexivity.
  - destruct (check_ssh_tools_result w) as [[[|] Hc] | Hc].
    + rewrite (Hok Hc). auto.
    + erewrite script_tools_missing by eassumption. auto.
    + erewrite script_tools_interrupted by eassumption. auto.
  - intros a Ha. apply script_children in Ha.
    destruct Ha as [Ha | [Ha | (args' & source & Hp' & _ & [Hx' _] & _)]]; auto.
    congruence.
Qed.

Lemma missing_source_no_transfer_witness :
  printed (source_error no_source args_plain) (script no_source argv_plain)
  /\ shows_usage (script no_source argv_plain)
  /\ exit_status (script no_source argv_plain) = 1
  /\ children (events (script no_source argv_plain)) = [ssh_probe; scp_probe].
Proof.
  apply (proj1 (@missing_source_no_transfer no_source argv_plain args_plain
                  eq_refl eq_refl)).
  reflexivity.
Defined.

(** C1, as stated, fails.  On a machine without [ssh] the tool check ends
    the run before the source check: the source path is missing, yet the
    usage examples are not shown; and the copy tool has been invoked, by
    the availability probe [scp -h], as it is on a machine with both tools
    installed. *)
Lemma missing_source_without_usage :
  parse argv_plain = Parsed args_plain
  /\ path_exists no_ssh (source_path args_plain) = Returns false
  /\ ~ shows_usage (script no_ssh argv_plain)
  /\ invokes "scp" (script no_ssh argv_plain)
  /\ path_exists no_source (source_path args_plain) = Returns false
  /\ invokes "scp" (script no_source argv_plain).
Proof.
  split; [reflexivity |]. split; [reflexivity |]. split; [| split; [| split]].
  - intros H. specialize (H EmptyString).
    assert (Hin : In EmptyString usage_lines) by (vm_compute; tauto).
    apply H in Hin. vm_compute in Hin.
    repeat (destruct Hin as [Hin | Hin]; [discriminate Hin |]).
    exact Hin.
  - exists ["-h"]. vm_compute. tauto.
  - reflexivity.
  - exists ["-h"]. vm_compute. tauto.
Qed.

(* ------------------------------------------------------------------ *)
(** ** The tool availability check (C8) *)

(** The check in terms of the codes that [run_command] reports: it runs
    [ssh -V] and [scp -h], answers true exactly when the code for [ssh] is
    0 or 255 and the code for [scp] is 0 or 1, and otherwise answers false
    after printing the diagnostic of the first tool found absent.  When it
    answers false, every invocation that parses exits with status 1 and
    has started no child besides the two probes. *)
Lemma tool_check_gates_upload (w : world) :
  (forall r1 r2,
      fst (run_command w ssh_probe true) = Ok r1 ->
      fst (run_command w scp_probe true) = Ok r2 ->
      (fst (check_ssh_tools w) = Ok true
       <-> (code_of r1 = 0 \/ code_of r1 = 255)
           /\ (code_of r2 = 0 \/ code_of r2 = 1))
      /\ (~ (code_of r1 = 0 \/ code_of r1 = 255) ->
          check_ssh_tools w
          = (Ok false, [ESpawn ["ssh"; "-V"] true; ESpawn ["scp"; "-h"] true;
                        EPrint ssh_diagnostic]))
      /\ ((code_of r1 = 0 \/ code_of r1 = 255) ->
          ~ (code_of r2 = 0 \/ code_of r2 = 1) ->
          check_ssh_tools w
          = (Ok false, [ESpawn ["ssh"; "-V"] true; ESpawn ["scp"; "-h"] true;
                        EPrint scp_diagnostic])))
  /\ (fst (check_ssh_tools w) = Ok false ->
      forall argv args,
        parse argv = Parsed args ->
        exit_status (script w argv) = 1
        /\ children (events (script w argv)) = [["ssh"; "-V"]; ["scp"; "-h"]]).
Proof.
  split.
  - intros r1 r2 H1 H2. rewrite check_ssh_tools_cases, H1, H2.
    rewrite <- !in_pair_spec.
    destruct (in_pair (code_of r1) 0 255), (in_pair (code_of r2) 0 1);
      cbn [negb fst]; repeat split; try reflexivity; try tauto;
      try discriminate; intros; try congruence;
      match goal with H : _ /\ _ |- _ => destruct H; discriminate end.
  - intros Hc argv args Hp.
    erewrite script_tools_missing by eassumption.
    destruct (probes_when_missing w Hc) as (d & _ & Hd).
    rewrite Hd. split; reflexivity.
Qed.

Lemma tool_check_gates_upload_witness :
  check_ssh_tools no_ssh
  = (Ok false, [ESpawn ["ssh"; "-V"] true; ESpawn ["scp"; "-h"] true;
                EPrint ssh_diagnostic])
  /\ exit_status (script no_ssh argv_plain) = 1
  /\ children (events (script no_ssh argv_plain)) = [["ssh"; "-V"]; ["scp"; "-h"]].
Proof.
  split.
  - apply (proj1 (proj2 (proj1 (tool_check_gates_upload no_ssh)
             (1, EmptyString, "[Errno 2] No such file or directory: 'ssh'")
             (0, EmptyString, EmptyString) eq_refl eq_refl))).
    vm_compute. intros [H | H]; discriminate H.
  - apply (proj2 (tool_check_gates_upload no_ssh) eq_refl argv_plain args_plain).
    reflexivity.
Defined.

(** C8.  The check does not classify a tool by its exit code alone.  On
    a machine without [scp], launching the probe raises and no exit code
    exists; [run_command] reports the code 1 in its place, and 1 is among
    the codes accepted for [scp].  So the check answers true and prints no
    diagnostic, and [main] goes on to attempt the upload, which is what
    fails.  The same launch failure of [ssh], whose accepted codes are 0
    and 255, makes the check answer false. *)
Theorem missing_scp_passes_tool_check :
  subprocess_run no_scp ["scp"; "-h"] true
  = Raises (Error "[Errno 2] No such file or directory: 'scp'")
  /\ check_ssh_tools no_scp
     = (Ok true, [ESpawn ["ssh"; "-V"] true; ESpawn ["scp"; "-h"] true])
  /\ children (events (script no_scp argv_plain))
     = [["ssh"; "-V"]; ["scp"; "-h"];
        ["scp"; "-r"; "/home/user/Boot"; "Administrator@10.0.0.5:~/"]]
  /\ printed "SCP failed (1): [Errno 2] No such file or directory: 'scp'"
             (script no_scp argv_plain)
  /\ ~ printed scp_diagnostic (script no_scp argv_plain)
  /\ subprocess_run no_ssh ["ssh"; "-V"] true
     = Raises (Error "[Errno 2] No such file or directory: 'ssh'")
  /\ check_ssh_tools no_ssh
     = (Ok false, [ESpawn ["ssh"; "-V"] true; ESpawn ["scp"; "-h"] true;
                   EPrint ssh_diagnostic]).
Proof.
  split; [reflexivity |]. split; [reflexivity |]. split; [reflexivity |].
  split; [unfold printed; vm_compute; tauto |].
  split; [| split; reflexivity].
  unfold printed. vm_compute. intros H.
  repeat (destruct H as [H | H]; [discriminate H |]).
  exact H.
Qed.

(* ------------------------------------------------------------------ *)
(** ** The remote instruction (C6) *)

(** In every run, a child [ssh -t ...] has exactly two further arguments:
    the login and the composed steps joined with [" && "]; a run that gets
    past the upload starts that child. *)
Lemma remote_instruction_is_joined_steps (w : world) (argv : list string) :
  (forall rest,
      In ("ssh" :: "-t" :: rest) (children (events (script w argv))) ->
      exists args source,
        parse argv = Parsed args
        /\ path_resolve w (source_path args) = Returns source
        /\ rest = [username args ++ "@" ++ remote_host args;
                   String.concat " && " (cmds (path_name w source) args)])
  /\ (forall args source,
         parse argv = Parsed args -> tools_ok w ->
         source_ready w args source -> uploaded w args source ->
         In ["ssh"; "-t"; username args ++ "@" ++ remote_host args;
             String.concat " && " (cmds (path_name w source) args)]
            (children (events (script w argv)))).
Proof.
  split.
  - intros rest Hin. apply script_children in Hin.
    destruct Hin as [H | [H | (args & source & Hp & _ & [_ Hr] & [H | [_ H]])]];
      try discriminate H.
    exists args, source. repeat split; try assumption.
    unfold ssh_argv, ssh_login, full in H. congruence.
  - intros args source Hp Hc Hready Hup.
    erewrite children_when_uploaded by eassumption.
    right; right; right; left. reflexivity.
Qed.

(** C6.  The instruction handed to [ssh] is the steps joined with
    [" && "], but a failing step does not always abort the rest.  The copy
    step puts the folder name into the command without quotes (the cleanup
    step quotes it), so for a source folder named [x || true] the joined
    string holds the operator [||] between [cd ~/x] and [true]: it is the
    chain [reading_odd].  On a device where creating the Boot folder fails
    and every other command succeeds, the chain goes on after that
    failure: [true] runs, and after it the copy, the cleanup and the mode
    query, which a failed step was to prevent. *)
Theorem failed_step_does_not_abort_odd_folder :
  parse argv_odd = Parsed args_odd
  /\ children (events (script odd_folder argv_odd))
     = [["ssh"; "-V"]; ["scp"; "-h"];
        ["scp"; "-r"; "/home/user/x || true"; "Administrator@10.0.0.5:~/"];
        ["ssh"; "-t"; "Administrator@10.0.0.5";
         String.concat " && " (cmds "x || true" args_odd)]]
  /\ nth_error (cmds "x || true" args_odd) 7
     = Some "cd ~/x || true && cp -R ./* '/usr/local/etc/TwinCAT/3.1/Boot/'"
  /\ nth_error (cmds "x || true" args_odd) 9
     = Some "cd ~ && rm -rf 'x || true'"
  /\ String.concat " && " (cmds "x || true" args_odd)
     = render_and_or reading_odd
  /\ fst (mkdir_denied mkdir_cmd 1%nat) = false
  /\ run_and_or mkdir_denied reading_odd O
     = (true, 10%nat,
        [ "echo 'Creating Boot directory if it does not exist...'";
          mkdir_cmd;
          "true";
          "cp -R ./* '/usr/local/etc/TwinCAT/3.1/Boot/'";
          "echo 'Cleaning up temp...'";
          "cd ~";
          "rm -rf 'x || true'";
          skip_notice; mode_echo; mode_cmd ]).
Proof.
  repeat (split; [reflexivity |]).
  reflexivity.
Qed.

(* ------------------------------------------------------------------ *)
(** ** The composed steps (C2, C4, C5, C9) *)

(** No step of the list is a doas rule check or the restart command unless
    the restart branch put it there. *)
Lemma base_cmds_plain (folder : string) (c : string) :
  In c (base_cmds folder) ->
  c <> restart_cmd /\ forall user, c <> doas_rule_cmd user.
Proof.
  unfold base_cmds. intros H.
  repeat (destruct H as [H | H];
          [subst c; split; [| intros user]; discriminate |]).
  contradiction.
Qed.

Lemma skip_cmds_plain (c : string) :
  In c skip_cmds ->
  c <> restart_cmd /\ forall user, c <> doas_rule_cmd user.
Proof.
  unfold skip_cmds. intros H.
  repeat (destruct H as [H | H];
          [subst c; split; [| intros user]; discriminate |]).
  contradiction.
Qed.

Lemma append_assoc (a b c : string) : (a ++ b) ++ c = a ++ b ++ c.
Proof.
  induction a as [| ch a IH]; simpl; [| rewrite IH]; reflexivity.
Qed.

Lemma concat_snoc (sep : string) (l : list string) (x y : string) :
  String.concat sep (l ++ [x; y])
  = String.concat sep (l ++ [x]) ++ sep ++ y.
Proof.
  induction l as [| a l IH].
  - simpl. reflexivity.
  - destruct l as [| b l].
    + simpl. rewrite !append_assoc. reflexivity.
    + change (String.concat sep ((a :: b :: l) ++ [x; y]))
        with (a ++ sep ++ String.concat sep ((b :: l) ++ [x; y])).
      rewrite IH.
      change (String.concat sep ((a :: b :: l) ++ [x]))
        with (a ++ sep ++ String.concat sep ((b :: l) ++ [x])).
      rewrite !append_assoc. reflexivity.
Qed.

(** Whatever the flags, the joined command ends in the mode query. *)
Lemma full_ends_in_mode_query (folder : string) (args : Namespace) :
  exists before, full folder args = before ++ " && " ++ mode_cmd.
Proof.
  unfold full, cmds.
  destruct (restart args).
  - exists (String.concat " && "
              (base_cmds folder
                 ++ firstn 5 (restart_cmds (username args)))%list).
    change (restart_cmds (username args))
      with (firstn 4 (restart_cmds (username args)) ++ [mode_echo; mode_cmd])%list.
    rewrite app_assoc, concat_snoc, <- app_assoc. reflexivity.
  - exists (String.concat " && " (base_cmds folder ++ [skip_notice; mode_echo])%list).
    change skip_cmds with ([skip_notice] ++ [mode_echo; mode_cmd])%list.
    rewrite app_assoc, concat_snoc, <- app_assoc. reflexivity.
Qed.

(** C2.  With the restart flag unset the composed sequence is the ten
    copy and cleanup steps followed by the skip notice and the mode query
    (its announcement and [TcSysExe.exe --mode], which also ends the joined
    command); no step is a doas rule check, for any user, and no step is
    the restart command. *)
Theorem no_restart_only_mode_query (folder : string) (args : Namespace) :
  restart args = false ->
  cmds folder args
  = (base_cmds folder
       ++ ["echo 'Skipping restart (use --restart)'"; "echo 'Mode:'";
           "TcSysExe.exe --mode"])%list
  /\ (forall user, ~ In (doas_rule_cmd user) (cmds folder args))
  /\ ~ In "doas TcSysExe.exe --run" (cmds folder args)
  /\ last (cmds folder args) EmptyString = "TcSysExe.exe --mode"
  /\ exists before, full folder args = before ++ " && TcSysExe.exe --mode".
Proof.
  intros Hr.
  assert (Hplain : forall c, In c (cmds folder args) ->
                             c <> restart_cmd /\ forall user, c <> doas_rule_cmd user).
  { unfold cmds. rewrite Hr. intros c Hin. apply in_app_or in Hin.
    destruct Hin; [eapply base_cmds_plain | apply skip_cmds_plain]; eassumption. }
  split; [unfold cmds; rewrite Hr; reflexivity |].
  split; [intros user Hin; apply Hplain in Hin; destruct Hin as [_ Hin];
          exact (Hin user eq_refl) |].
  split; [intros Hin; apply Hplain in Hin; destruct Hin as [Hin _];
          exact (Hin eq_refl) |].
  split; [unfold cmds; rewrite Hr; reflexivity |].
  apply full_ends_in_mode_query.
Qed.

Lemma no_restart_only_mode_query_witness :
  cmds "Boot" args_plain
  = (base_cmds "Boot"
       ++ ["echo 'Skipping restart (use --restart)'"; "echo 'Mode:'";
           "TcSysExe.exe --mode"])%list
  /\ ~ In "doas TcSysExe.exe --run" (cmds "Boot" args_plain).
Proof.
  pose proof (@no_restart_only_mode_query "Boot" args_plain eq_refl) as H.
  exact (conj (proj1 H) (proj1 (proj2 (proj2 H)))).
Defined.

(** The length of the composed sequence: ten steps and then three without
    the restart flag, six with it. *)
Lemma cmds_length (folder : string) (args : Namespace) :
  List.length (cmds folder args) = if restart args then 16%nat else 13%nat.
Proof.
  unfold cmds. destruct (restart args); reflexivity.
Qed.

(** C4, as amended.  The invocation
    [--source-path ./Boot --remote-host 10.0.0.5] has the restart flag
    unset; its composed remote command has exactly 13 steps, ends in the
    mode query and contains no doas rule check and no restart command. *)
Theorem plain_invocation_thirteen_steps (folder : string) :
  parse ["--source-path"; "./Boot"; "--remote-host"; "10.0.0.5"]
  = Parsed args_plain
  /\ List.length (cmds folder args_plain) = 13%nat
  /\ last (cmds folder args_plain) EmptyString = "TcSysExe.exe --mode"
  /\ (forall user, ~ In (doas_rule_cmd user) (cmds folder args_plain))
  /\ ~ In "doas TcSysExe.exe --run" (cmds folder args_plain).
Proof.
  split; [reflexivity |]. split; [reflexivity |]. split; [reflexivity |].
  assert (Hplain : forall c, In c (cmds folder args_plain) ->
                             c <> restart_cmd /\ forall user, c <> doas_rule_cmd user).
  { intros c Hin. apply in_app_or in Hin.
    destruct Hin; [eapply base_cmds_plain | apply skip_cmds_plain]; eassumption. }
  split.
  - intros user Hin. apply Hplain in Hin. destruct Hin as [_ Hin].
    exact (Hin user eq_refl).
  - intros Hin. apply Hplain in Hin. destruct Hin as [Hin _].
    exact (Hin eq_refl).
Qed.

(** C4, as stated, fails: the sequence composed for that invocation has 13
    steps, not 9. *)
Lemma plain_invocation_not_nine_steps :
  parse argv_plain = Parsed args_plain
  /\ List.length (cmds "Boot" args_plain) = 13%nat
  /\ List.length (cmds "Boot" args_plain) <> 9%nat.
Proof.
  split; [reflexivity |]. split; [reflexivity |].
  vm_compute. discriminate.
Qed.

(** C5, as amended.  The invocation
    [--source-path ./Boot --remote-host 10.0.0.5 --restart] has the restart
    flag set; its composed remote command has exactly 16 steps, among them
    the doas rule check for the default user and the command
    [doas TcSysExe.exe --run]. *)
Theorem restart_invocation_sixteen_steps (folder : string) :
  parse ["--source-path"; "./Boot"; "--remote-host"; "10.0.0.5"; "--restart"]
  = Parsed args_restart
  /\ List.length (cmds folder args_restart) = 16%nat
  /\ In (doas_rule_cmd "Administrator") (cmds folder args_restart)
  /\ In "doas TcSysExe.exe --run" (cmds folder args_restart).
Proof.
  split; [reflexivity |]. split; [reflexivity |].
  split; apply in_or_app; right; simpl; tauto.
Qed.

(** C5, as stated, fails: the sequence composed for that invocation has 16
    steps, not 13. *)
Lemma restart_invocation_not_thirteen_steps :
  parse argv_restart = Parsed args_restart
  /\ List.length (cmds "Boot" args_restart) = 16%nat
  /\ List.length (cmds "Boot" args_restart) <> 13%nat.
Proof.
  split; [reflexivity |]. split; [reflexivity |].
  vm_compute. discriminate.
Qed.

(** C9.  Whatever the folder and the flags, the ownership step is one
    fixed string that compares with and sets the owner [Administrator] and
    the group [wheel]; the login of both transfers and, under [--restart],
    the doas rule are built from the supplied user name.  So a user name
    other than [Administrator] logs in as one user while the directory is
    given to another. *)
Theorem ownership_fixed_rule_by_username (folder : string) (args : Namespace) :
  nth_error (cmds folder args) 3
  = Some ("if [ " ++ dq ++ "$(stat -f '%Su' '/usr/local/etc/TwinCAT/3.1/Boot')"
          ++ dq ++ " != 'Administrator' ] || [ " ++ dq
          ++ "$(stat -f '%Sg' '/usr/local/etc/TwinCAT/3.1/Boot')" ++ dq
          ++ " != 'wheel' ]; then doas chown -R Administrator:wheel "
          ++ "'/usr/local/etc/TwinCAT/3.1/Boot'; fi")
  /\ (forall folder' args',
         nth_error (cmds folder' args') 3 = nth_error (cmds folder args) 3)
  /\ nth_error (scp_argv folder args) 3
     = Some (username args ++ "@" ++ remote_host args ++ ":~/")
  /\ nth_error (ssh_argv folder args) 2
     = Some (username args ++ "@" ++ remote_host args)
  /\ (restart args = true ->
      nth_error (cmds folder args) 11
      = Some ("if ! grep -q 'permit nopass " ++ username args
              ++ " cmd TcSysExe.exe' /usr/local/etc/doas.conf 2>/dev/null; then "
              ++ "echo 'Adding doas rule for TcSysExe.exe...' && "
              ++ "echo 'permit nopass " ++ username args
              ++ " cmd TcSysExe.exe' | doas tee -a /usr/local/etc/doas.conf; "
              ++ "else echo 'doas rule for TcSysExe.exe already exists'; fi"))
  /\ (username args <> "Administrator" -> boot_owner <> username args).
Proof.
  split; [reflexivity |]. split; [intros; reflexivity |].
  split; [reflexivity |]. split; [reflexivity |]. split.
  - intros Hr. unfold cmds. rewrite Hr. cbn [nth_error app base_cmds restart_cmds].
    unfold doas_rule_cmd, doas_rule, doas_conf.
    rewrite !append_assoc. reflexivity.
  - intros Hne Heq. apply Hne. symmetry. exact Heq.
Qed.

Lemma ownership_fixed_rule_by_username_witness :
  nth_error (cmds "xyz" args_myuser) 11 = Some (doas_rule_cmd "myuser")
  /\ boot_owner <> "myuser".
Proof.
  pose proof (ownership_fixed_rule_by_username "xyz" args_myuser) as H.
  split.
  - exact (proj1 (proj2 (proj2 (proj2 (proj2 H)))) eq_refl).
  - apply (proj2 (proj2 (proj2 (proj2 (proj2 H))))).
    vm_compute. discriminate.
Defined.

(* ------------------------------------------------------------------ *)
(** ** The doas rule check (C3) *)

(** The shell term of the check renders to the string that the script
    composes. *)
Lemma render_doas_rule_check (user : string) :
  render (doas_rule_check user) = doas_rule_cmd user.
Proof.
  unfold doas_rule_check, doas_rule_cmd. cbn [render].
  rewrite !append_assoc. reflexivity.
Qed.

(** The restart branch puts the rule check of the user in the list once,
    and no rule check of anybody else. *)
Lemma doas_rule_cmd_once (folder : string) (args : Namespace) :
  restart args = true ->
  count_occ string_dec (cmds folder args) (doas_rule_cmd (username args)) = 1%nat
  /\ forall user, In (doas_rule_cmd user) (cmds folder args) ->
                  doas_rule_cmd user = doas_rule_cmd (username args).
Proof.
  intros Hr. unfold cmds. rewrite Hr. split.
  - rewrite count_occ_app.
    replace (count_occ string_dec (base_cmds folder) (doas_rule_cmd (username args)))
      with O.
    + unfold restart_cmds. cbn [count_occ].
      repeat match goal with
             | |- context [string_dec ?a ?b] =>
                 let E := fresh "E" in
                 destruct (string_dec a b) as [E | E];
                 [try discriminate E | try (exfalso; apply E; reflexivity)]
             end.
      reflexivity.
    + symmetry. apply count_occ_not_In. intros Hin.
      apply base_cmds_plain in Hin. destruct Hin as [_ Hin].
      exact (Hin _ eq_refl).
  - intros user Hin. apply in_app_or in Hin. destruct Hin as [Hin | Hin].
    + apply base_cmds_plain in Hin. destruct Hin as [_ Hin].
      exfalso. exact (Hin _ eq_refl).
    + unfold restart_cmds in Hin.
      repeat (destruct Hin as [Hin | Hin];
              [first [discriminate Hin | symmetry; exact Hin] |]).
      contradiction.
Qed.

(** C3.  With the restart flag set the composed sequence holds the doas
    rule check of the user once, and the check appends the rule only when
    its [grep] selects no line of [doas.conf]; but the pattern of that
    [grep] is the rule itself read as a regular expression, so the check
    does not always find the rule it wrote.  For [--username a*b] the rule
    line is not selected by the [grep] for it, and two runs on a device
    leave the line in [doas.conf] twice; for the default user two runs
    leave it once. *)
Theorem doas_rule_duplicated_for_starred_user :
  parse argv_star = Parsed args_star
  /\ count_occ string_dec (cmds "Boot" args_star) (doas_rule_cmd "a*b") = 1%nat
  /\ nth_error (cmds "Boot" args_star) 11
     = Some ("if ! grep -q 'permit nopass a*b cmd TcSysExe.exe' "
             ++ "/usr/local/etc/doas.conf 2>/dev/null; then "
             ++ "echo 'Adding doas rule for TcSysExe.exe...' && "
             ++ "echo 'permit nopass a*b cmd TcSysExe.exe' | "
             ++ "doas tee -a /usr/local/etc/doas.conf; "
             ++ "else echo 'doas rule for TcSysExe.exe already exists'; fi")
  /\ render (doas_rule_check "a*b") = doas_rule_cmd "a*b"
  /\ grep_bre "permit nopass a*b cmd TcSysExe.exe"
              "permit nopass a*b cmd TcSysExe.exe" = false
  /\ lines (repeat_exec true 2 (doas_rule_check "a*b") device_files doas_conf)
     = [ "permit :wheel";
         "permit nopass a*b cmd TcSysExe.exe";
         "permit nopass a*b cmd TcSysExe.exe" ]
  /\ lines (repeat_exec true 2 (doas_rule_check "Administrator")
                        device_files doas_conf)
     = [ "permit :wheel";
         "permit nopass Administrator cmd TcSysExe.exe" ].
Proof.
  split; [reflexivity |].
  split; [apply (doas_rule_cmd_once "Boot" args_star eq_refl) |].
  split; [reflexivity |].
  split; [apply render_doas_rule_check |].
  split; [vm_compute; reflexivity |].
  split; vm_compute; reflexivity.
Qed.

(* ------------------------------------------------------------------ *)
(** ** The order of the child processes *)

Lemma probes_shape (w : world) :
  children (probes w) = [ssh_probe]
  \/ children (probes w) = [ssh_probe; scp_probe].
Proof.
  unfold probes. rewrite check_ssh_tools_cases.
  destruct (fst (run_command w ssh_probe true)) as [r1 | e1]; [| auto].
  destruct (fst (run_command w scp_probe true)) as [r2 | e2]; [| auto].
  destruct (negb (in_pair (code_of r1) 0 255)); [auto |].
  destruct (negb (in_pair (code_of r2) 0 1)); auto.
Qed.

(** X1.  A transfer is guarded by every check before it.  A child
    [scp -r ...] is started only after the tool check passed and the source
    path was found and resolved, and it uploads the resolved path to the
    home directory of the login on the device; a child [ssh -t ...] is
    started only after, on top of that, the upload came back with code 0. *)
Theorem transfers_are_guarded (w : world) (argv : list string) :
  (forall rest,
      In ("scp" :: "-r" :: rest) (children (events (script w argv))) ->
      exists args source,
        parse argv = Parsed args /\ tools_ok w
        /\ path_exists w (source_path args) = Returns true
        /\ path_resolve w (source_path args) = Returns source
        /\ rest = [source; username args ++ "@" ++ remote_host args ++ ":~/"])
  /\ (forall rest,
         In ("ssh" :: "-t" :: rest) (children (events (script w argv))) ->
         exists args source up,
           parse argv = Parsed args /\ tools_ok w
           /\ path_exists w (source_path args) = Returns true
           /\ path_resolve w (source_path args) = Returns source
           /\ fst (run_command w (scp_argv source args) false) = Ok up
           /\ code_of up = 0).
Proof.
  split; intros rest Hin; apply script_children in Hin;
    destruct Hin as [H | [H | (args & source & Hp & Hc & [Hx Hr] & H)]];
    try discriminate H.
  - destruct H as [H | [_ H]]; [| discriminate H].
    exists args, source. repeat split; try assumption.
    unfold scp_argv, temp_dest in H. congruence.
  - destruct H as [H | [(up & Hu & Hcode) _]]; [discriminate H |].
    exists args, source, up. repeat split; assumption.
Qed.

Lemma transfers_are_guarded_witness :
  exists args source up,
    parse argv_plain = Parsed args /\ tools_ok healthy
    /\ path_exists healthy (source_path args) = Returns true
    /\ path_resolve healthy (source_path args) = Returns source
    /\ fst (run_command healthy (scp_argv source args) false) = Ok up
    /\ code_of up = 0.
Proof.
  apply (proj2 (transfers_are_guarded healthy argv_plain)
               [ssh_login args_plain; full "Boot" args_plain]).
  vm_compute. tauto.
Defined.

(** X2.  The children of a run are an initial part of the fixed sequence
    [ssh -V], [scp -h], [scp -r ...], [ssh -t ...]: never more than four,
    never out of order, and none is started twice. *)
Theorem children_in_fixed_order (w : world) (argv : list string) :
  children (events (script w argv)) = []
  \/ children (events (script w argv)) = [["ssh"; "-V"]]
  \/ children (events (script w argv)) = [["ssh"; "-V"]; ["scp"; "-h"]]
  \/ exists args source,
       parse argv = Parsed args
       /\ path_resolve w (source_path args) = Returns source
       /\ (children (events (script w argv))
           = [["ssh"; "-V"]; ["scp"; "-h"]; scp_argv source args]
           \/ children (events (script w argv))
              = [["ssh"; "-V"]; ["scp"; "-h"]; scp_argv source args;
                 ssh_argv (path_name w source) args]).
Proof.
  assert (Hprobe : forall tail,
             children tail = [] ->
             children (EPrint banner :: probes w ++ tail)%list = [ssh_probe]
             \/ children (EPrint banner :: probes w ++ tail)%list
                = [ssh_probe; scp_probe]).
  { intros tail Ht. cbn [children]. rewrite children_app, Ht, app_nil_r.
    apply probes_shape. }
  assert (Hup : forall args source tail,
             tools_ok w -> children tail = [] ->
             children (upto_upload w source args ++ tail)%list
             = [ssh_probe; scp_probe; scp_argv source args]).
  { intros args source tail Hc Ht.
    rewrite children_app, children_upto_upload, Ht, app_nil_r.
    rewrite probes_when_ok by assumption. reflexivity. }
  destruct (ends_total w argv) as [e He]; destruct He as
      [ Hp | Hp | args Hp Hc | args Hp Hc | args f Hp Hc Hx | args Hp Hc Hx
      | args f Hp Hc Hx Hr | args source Hp Hc Hready Hu
      | args source up Hp Hc Hready Hu Hcode
      | args source Hp Hc Hready Hup'
      | args source remote Hp Hc Hready Hup' Hs Hrc
      | args source remote Hp Hc Hready Hup' Hs Hrc ].
  - erewrite script_parse_exit by eassumption. auto.
  - erewrite script_parse_exit by eassumption. auto.
  - erewrite script_tools_interrupted by eassumption.
    destruct (Hprobe [EPrint cancelled] eq_refl); auto.
  - erewrite script_tools_missing by eassumption.
    rewrite <- (app_nil_r (probes w)).
    destruct (Hprobe [] eq_refl); auto.
  - erewrite script_exists_fault by eassumption.
    destruct (Hprobe [EPrint (fault_report f)] eq_refl); auto.
  - erewrite script_source_missing by eassumption.
    destruct (Hprobe (EPrint (source_error w args) :: map EPrint usage_lines)
                     (children_prints (source_error w args :: usage_lines)));
      auto.
  - erewrite script_resolve_fault by eassumption.
    destruct (Hprobe [EPrint (fault_report f)] eq_refl); auto.
  - erewrite script_copy_interrupted by eassumption.
    right; right; right. exists args, source. destruct Hready as [_ Hr].
    split; [assumption |]. split; [assumption |]. left.
    apply Hup; [assumption | reflexivity].
  - erewrite script_copy_failed by eassumption.
    right; right; right. exists args, source. destruct Hready as [_ Hr].
    split; [assumption |]. split; [assumption |]. left.
    apply Hup; [assumption | reflexivity].
  - right; right; right. exists args, source.
    split; [assumption |]. split; [apply Hready |]. right.
    eapply children_when_uploaded; eassumption.
  - right; right; right. exists args, source.
    split; [assumption |]. split; [apply Hready |]. right.
    eapply children_when_uploaded; eassumption.
  - right; right; right. exists args, source.
    split; [assumption |]. split; [apply Hready |]. right.
    eapply children_when_uploaded; eassumption.
Qed.

(* ------------------------------------------------------------------ *)
(** ** What the last lines of a run say *)

Lemma probes_prints (w : world) (line : string) :
  In (EPrint line) (probes w) ->
  line = ssh_diagnostic \/ line = scp_diagnostic.
Proof.
  unfold probes. rewrite check_ssh_tools_cases.
  destruct (fst (run_command w ssh_probe true)) as [r1 | e1];
    [destruct (fst (run_command w scp_probe true)) as [r2 | e2];
     [destruct (negb (in_pair (code_of r1) 0 255));
      [| destruct (negb (in_pair (code_of r2) 0 1))] |] |];
    simpl; intros H;
    repeat (destruct H as [H | H]; [inversion H; auto |]);
    contradiction.
Qed.

(** Splits a hypothesis [In (EPrint line) trace] over a trace given by a
    stage lemma, and closes the cases where the line is another one. *)
Ltac other_line H :=
  unfold upto_remote, upto_upload, configuration, usage_lines in H;
  cbn [map] in H;
  repeat (rewrite in_app_iff in H || cbn [In] in H);
  repeat match type of H with
         | _ \/ _ => destruct H as [H | H]
         end;
  try contradiction;
  try discriminate H;
  try (apply probes_prints in H; destruct H as [H | H]; discriminate H).

Ltac this_line :=
  unfold printed, upto_remote, upto_upload, configuration, usage_lines;
  cbn [events snd map];
  repeat (rewrite in_app_iff || cbn [In]); tauto.

(** X3.  For a command line that parses, the line [=== Success ===] is
    printed exactly when the process exits with status 0, and that happens
    only after both the upload and the remote execution came back with
    code 0. *)
Theorem success_line_iff_status_zero
        (w : world) (argv : list string) (args : Namespace) :
  parse argv = Parsed args ->
  (printed (nl ++ "=== Success ===") (script w argv)
   <-> exit_status (script w argv) = 0)
  /\ (exit_status (script w argv) = 0 ->
      exists source remote,
        uploaded w args source
        /\ fst (run_command w (ssh_argv (path_name w source) args) false)
           = Ok remote
        /\ code_of remote = 0).
Proof.
  intros Hparse.
  destruct (ends_total w argv) as [e He]; destruct He as
      [ Hp | Hp | args' Hp Hc | args' Hp Hc | args' f Hp Hc Hx
      | args' Hp Hc Hx | args' f Hp Hc Hx Hr | args' source Hp Hc Hready Hu
      | args' source up Hp Hc Hready Hu Hcode
      | args' source Hp Hc Hready Hup Hs
      | args' source remote Hp Hc Hready Hup Hs Hrc
      | args' source remote Hp Hc Hready Hup Hs Hrc ];
    try congruence;
    assert (Hsame : args' = args) by congruence; subst args'.
  - erewrite script_tools_interrupted by eassumption.
    split; [split |]; intros H; try discriminate H.
    unfold printed in H; cbn [events snd] in H. other_line H.
  - erewrite script_tools_missing by eassumption.
    split; [split |]; intros H; try discriminate H.
    unfold printed in H; cbn [events snd] in H. other_line H.
  - erewrite script_exists_fault by eassumption.
    split; [split |]; intros H; try (destruct f; discriminate H).
    unfold printed in H; cbn [events snd] in H. destruct f; other_line H.
  - erewrite script_source_missing by eassumption.
    split; [split |]; intros H; try discriminate H.
    unfold printed in H; cbn [events snd] in H. other_line H.
  - erewrite script_resolve_fault by eassumption.
    split; [split |]; intros H; try (destruct f; discriminate H).
    unfold printed in H; cbn [events snd] in H. destruct f; other_line H.
  - erewrite script_copy_interrupted by eassumption.
    split; [split |]; intros H; try discriminate H.
    unfold printed in H; cbn [events snd] in H. other_line H.
  - erewrite script_copy_failed by eassumption.
    split; [split |]; intros H; try discriminate H.
    unfold printed in H; cbn [events snd] in H. other_line H.
  - erewrite script_remote_interrupted by eassumption.
    split; [split |]; intros H; try discriminate H.
    unfold printed in H; cbn [events snd] in H. other_line H.
  - erewrite script_remote_failed by eassumption.
    split; [split |]; intros H; try discriminate H.
    unfold printed in H; cbn [events snd] in H. other_line H.
  - erewrite script_success by eassumption.
    split; [split |]; intros H.
    + reflexivity.
    + this_line.
    + exists source, remote. auto.
Qed.

Lemma success_line_iff_status_zero_witness :
  printed (nl ++ "=== Success ===") (script healthy argv_plain)
  <-> exit_status (script healthy argv_plain) = 0.
Proof.
  exact (proj1 (@success_line_iff_status_zero healthy argv_plain args_plain
                  eq_refl)).
Defined.

(** X4.  The line [Cancelled by user.] is printed exactly when the process
    exits with status 130. *)
Theorem cancelled_line_iff_status_130 (w : world) (argv : list string) :
  printed (nl ++ "Cancelled by user.") (script w argv)
  <-> exit_status (script w argv) = 130.
Proof.
  destruct (ends_total w argv) as [e He]; destruct He as
      [ Hp | Hp | args Hp Hc | args Hp Hc | args f Hp Hc Hx
      | args Hp Hc Hx | args f Hp Hc Hx Hr | args source Hp Hc Hready Hu
      | args source up Hp Hc Hready Hu Hcode
      | args source Hp Hc Hready Hup Hs
      | args source remote Hp Hc Hready Hup Hs Hrc
      | args source remote Hp Hc Hready Hup Hs Hrc ].
  - erewrite script_parse_exit by eassumption.
    split; intros H; [destruct H | discriminate H].
  - erewrite script_parse_exit by eassumption.
    split; intros H; [destruct H | discriminate H].
  - erewrite script_tools_interrupted by eassumption.
    split; intros H; [reflexivity | this_line].
  - erewrite script_tools_missing by eassumption.
    split; intros H; [| discriminate H].
    unfold printed in H; cbn [events snd] in H. other_line H.
  - erewrite script_exists_fault by eassumption. destruct f.
    + split; intros H; [| discriminate H].
      unfold printed in H; cbn [events snd] in H. other_line H.
    + split; intros H; [reflexivity | this_line].
  - erewrite script_source_missing by eassumption.
    split; intros H; [| discriminate H].
    unfold printed in H; cbn [events snd] in H. other_line H.
  - erewrite script_resolve_fault by eassumption. destruct f.
    + split; intros H; [| discriminate H].
      unfold printed in H; cbn [events snd] in H. other_line H.
    + split; intros H; [reflexivity | this_line].
  - erewrite script_copy_interrupted by eassumption.
    split; intros H; [reflexivity | this_line].
  - erewrite script_copy_failed by eassumption.
    split; intros H; [| discriminate H].
    unfold printed in H; cbn [events snd] in H. other_line H.
  - erewrite script_remote_interrupted by eassumption.
    split; intros H; [reflexivity | this_line].
  - erewrite script_remote_failed by eassumption.
    split; intros H; [| discriminate H].
    unfold printed in H; cbn [events snd] in H. other_line H.
  - erewrite script_success by eassumption.
    split; intros H; [| discriminate H].
    unfold printed in H; cbn [events snd] in H. other_line H.
Qed.

Lemma cancelled_line_iff_status_130_witness :
  exit_status (script interrupted_upload argv_restart) = 130.
Proof.
  apply (proj1 (cancelled_line_iff_status_130 interrupted_upload argv_restart)).
  unfold printed. vm_compute. tauto.
Defined.

(** X5.  The usage examples are shown for a missing source path and for
    nothing else: if their heading is printed, then the tool check had
    passed, the source path was reported missing, all five usage lines are
    printed and the process exits with status 1. *)
Theorem usage_only_for_missing_source (w : world) (argv : list string) :
  printed (nl ++ "Usage Examples:") (script w argv) ->
  exists args,
    parse argv = Parsed args /\ tools_ok w
    /\ path_exists w (source_path args) = Returns false
    /\ shows_usage (script w argv)
    /\ exit_status (script w argv) = 1.
Proof.
  destruct (ends_total w argv) as [e He]; destruct He as
      [ Hp | Hp | args Hp Hc | args Hp Hc | args f Hp Hc Hx
      | args Hp Hc Hx | args f Hp Hc Hx Hr | args source Hp Hc Hready Hu
      | args source up Hp Hc Hready Hu Hcode
      | args source Hp Hc Hready Hup Hs
      | args source remote Hp Hc Hready Hup Hs Hrc
      | args source remote Hp Hc Hready Hup Hs Hrc ].
  - erewrite script_parse_exit by eassumption. intros H. destruct H.
  - erewrite script_parse_exit by eassumption. intros H. destruct H.
  - erewrite script_tools_interrupted by eassumption. intros H.
    unfold printed in H; cbn [events snd] in H. other_line H.
  - erewrite script_tools_missing by eassumption. intros H.
    unfold printed in H; cbn [events snd] in H. other_line H.
  - erewrite script_exists_fault by eassumption. intros H.
    unfold printed in H; cbn [events snd] in H. destruct f; other_line H.
  - erewrite script_source_missing by eassumption. intros _.
    exists args. repeat split; try assumption.
    intros line Hline. unfold printed. cbn [events snd].
    right. apply in_or_app. right. right. apply in_map. exact Hline.
  - erewrite script_resolve_fault by eassumption. intros H.
    unfold printed in H; cbn [events snd] in H. destruct f; other_line H.
  - erewrite script_copy_interrupted by eassumption. intros H.
    unfold printed in H; cbn [events snd] in H. other_line H.
  - erewrite script_copy_failed by eassumption. intros H.
    unfold printed in H; cbn [events snd] in H. other_line H.
  - erewrite script_remote_interrupted by eassumption. intros H.
    unfold printed in H; cbn [events snd] in H. other_line H.
  - erewrite script_remote_failed by eassumption. intros H.
    unfold printed in H; cbn [events snd] in H. other_line H.
  - erewrite script_success by eassumption. intros H.
    unfold printed in H; cbn [events snd] in H. other_line H.
Qed.

Lemma usage_only_for_missing_source_witness :
  exists args,
    parse argv_plain = Parsed args /\ tools_ok no_source
    /\ path_exists no_source (source_path args) = Returns false
    /\ shows_usage (script no_source argv_plain)
    /\ exit_status (script no_source argv_plain) = 1.
Proof.
  apply (@usage_only_for_missing_source no_source argv_plain).
  vm_compute. tauto.
Defined.

(** X6.  What the line [SCP failed] can tell.  The upload runs without
    capturing output, so when [scp] finishes with a code other than 0 the
    line carries that code and an empty error text; the error text is
    filled only when [scp] could not be launched at all, and then the code
    shown is 1.  Either way the process exits with status 1 and the remote
    execution is not started. *)
Theorem scp_failure_line
        (w : world) (argv : list string) (args : Namespace) (source : string) :
  parse argv = Parsed args -> tools_ok w -> source_ready w args source ->
  (forall p,
      subprocess_run w (scp_argv source args) false = Returns p ->
      returncode p <> 0 ->
      printed ("SCP failed (" ++ str_int (returncode p) ++ "): ")
              (script w argv)
      /\ exit_status (script w argv) = 1
      /\ children (events (script w argv))
         = [ssh_probe; scp_probe; scp_argv source args])
  /\ (forall msg,
         subprocess_run w (scp_argv source args) false = Raises (Error msg) ->
         printed ("SCP failed (1): " ++ msg) (script w argv)
         /\ exit_status (script w argv) = 1
         /\ children (events (script w argv))
            = [ssh_probe; scp_probe; scp_argv source args]).
Proof.
  intros Hp Hc Hready.
  assert (Hshape : forall up,
             fst (run_command w (scp_argv source args) false) = Ok up ->
             code_of up <> 0 ->
             printed ("SCP failed (" ++ str_int (code_of up) ++ "): "
                      ++ err_of up) (script w argv)
             /\ exit_status (script w argv) = 1
             /\ children (events (script w argv))
                = [ssh_probe; scp_probe; scp_argv source args]).
  { intros up Hu Hcode. erewrite script_copy_failed by eassumption.
    split; [| split].
    - unfold printed. cbn [events snd]. apply in_or_app. right. left.
      reflexivity.
    - reflexivity.
    - cbn [events snd]. rewrite children_app, children_upto_upload.
      rewrite probes_when_ok by assumption. reflexivity. }
  split.
  - intros p Hrun Hcode.
    apply (Hshape (returncode p, EmptyString, EmptyString)).
    + rewrite run_command_cases, Hrun. reflexivity.
    + exact Hcode.
  - intros msg Hrun.
    apply (Hshape (1, EmptyString, msg)).
    + rewrite run_command_cases, Hrun. reflexivity.
    + discriminate.
Qed.

Lemma scp_failure_line_witness :
  printed "SCP failed (255): " (script unreachable argv_plain)
  /\ printed "SCP failed (1): [Errno 2] No such file or directory: 'scp'"
             (script no_scp argv_plain).
Proof.
  split.
  - apply (proj1 (@scp_failure_line unreachable argv_plain args_plain
                    "/home/user/Boot" eq_refl eq_refl (conj eq_refl eq_refl))
                 {| returncode := 255; stdout := EmptyString;
                    stderr := EmptyString |} eq_refl).
    discriminate.
  - apply (proj2 (@scp_failure_line no_scp argv_plain args_plain
                    "/home/user/Boot" eq_refl eq_refl (conj eq_refl eq_refl))
                 "[Errno 2] No such file or directory: 'scp'" eq_refl).
Defined.

(* ------------------------------------------------------------------ *)
(** ** The command line *)

Lemma plain_is_argument (v : string) :
  plain v = true -> is_argument v = true.
Proof.
  destruct v as [| c r]; [reflexivity |].
  unfold plain, is_argument. intros Hc. apply negb_true_iff in Hc.
  cbn [String.eqb classify]. rewrite Hc. reflexivity.
Qed.

(** X9.  The two documented spellings of a command line parse to what
    they say, for all values that are empty or do not start with a dash:
    the two required flags alone leave [restart] off and the user name at
    [Administrator]; with [--username] and [--restart] the given user name
    is taken and [restart] is on. *)
Theorem plain_values_parse (src host user : string) :
  plain src = true -> plain host = true -> plain user = true ->
  parse ["--source-path"; src; "--remote-host"; host]
  = Parsed {| source_path := src; remote_host := host;
              restart := false; username := "Administrator" |}
  /\ parse ["--source-path"; src; "--remote-host"; host;
            "--username"; user; "--restart"]
     = Parsed {| source_path := src; remote_host := host;
                 restart := true; username := user |}.
Proof.
  intros Hs Hh Hu.
  assert (Hamb : forall v, plain v = true ->
                           String.eqb v "--" = false /\ classify v = TokA).
  { intros v Hv. apply plain_is_argument in Hv. unfold is_argument in Hv.
    apply andb_true_iff in Hv. destruct Hv as [H1 H2].
    apply negb_true_iff in H1. split; [exact H1 |].
    destruct (classify v); try discriminate H2. reflexivity. }
  destruct (Hamb src Hs) as [Es Cs], (Hamb host Hh) as [Eh Ch],
           (Hamb user Hu) as [Eu Cu].
  pose proof (plain_is_argument src Hs) as As.
  pose proof (plain_is_argument host Hh) as Ah.
  pose proof (plain_is_argument user Hu) as Au.
  split.
  - unfold parse.
    change (has_ambiguous ["--source-path"; src; "--remote-host"; host])
      with (if String.eqb src "--" then false
            else match classify src with
                 | Ambiguous => true
                 | _ => if String.eqb host "--" then false
                        else match classify host with
                             | Ambiguous => true
                             | _ => false
                             end
                 end).
    rewrite Es, Cs, Eh, Ch.
    change (consume ["--source-path"; src; "--remote-host"; host] initial)
      with (if is_argument src
            then if is_argument host
                 then inl (store RemoteHost host (store SourcePath src initial))
                 else inr 2
            else inr 2 : pstate + Z).
    rewrite As, Ah. reflexivity.
  - unfold parse.
    change (has_ambiguous ["--source-path"; src; "--remote-host"; host;
                           "--username"; user; "--restart"])
      with (if String.eqb src "--" then false
            else match classify src with
                 | Ambiguous => true
                 | _ => if String.eqb host "--" then false
                        else match classify host with
                             | Ambiguous => true
                             | _ => if String.eqb user "--" then false
                                    else match classify user with
                                         | Ambiguous => true
                                         | _ => false
                                         end
                             end
                 end).
    rewrite Es, Cs, Eh, Ch, Eu, Cu.
    change (consume ["--source-path"; src; "--remote-host"; host;
                     "--username"; user; "--restart"] initial)
      with (if is_argument src
            then if is_argument host
                 then if is_argument user
                      then inl (store Restart EmptyString
                                  (store Username user
                                     (store RemoteHost host
                                        (store SourcePath src initial))))
                      else inr 2
                 else inr 2
            else inr 2 : pstate + Z).
    rewrite As, Ah, Au. reflexivity.
Qed.

Lemma plain_values_parse_witness :
  parse ["--source-path"; "/path/to/Boot"; "--remote-host"; "192.168.1.100"]
  = Parsed {| source_path := "/path/to/Boot"; remote_host := "192.168.1.100";
              restart := false; username := "Administrator" |}.
Proof.
  exact (proj1 (@plain_values_parse "/path/to/Boot" "192.168.1.100" "myuser"
                  eq_refl eq_refl eq_refl)).
Defined.

(** X10.  A value glued to its flag by [=] is taken as it is also when it
    starts with a dash, which the parser refuses for a value that comes as
    a string of its own; the one exception is the separator [--] itself,
    which the parser does not keep as a value. *)
Theorem glued_values_parse (src host user : string) :
  src <> "--" -> host <> "--" -> user <> "--" ->
  parse ["--source-path=" ++ src; "--remote-host=" ++ host;
         "--username=" ++ user]
  = Parsed {| source_path := src; remote_host := host;
              restart := false; username := user |}
  /\ parse ["--source-path"; "-x"; "--remote-host=" ++ host] = Exit 2.
Proof.
  intros _ _ _. split; reflexivity.
Qed.

Lemma glued_values_parse_witness :
  parse ["--source-path=" ++ "-x"; "--remote-host=" ++ "10.0.0.5";
         "--username=" ++ "-u"]
  = Parsed {| source_path := "-x"; remote_host := "10.0.0.5";
              restart := false; username := "-u" |}.
Proof.
  apply (@glued_values_parse "-x" "10.0.0.5" "-u").
  - discriminate.
  - discriminate.
  - discriminate.
Defined.

(** The value an option takes with it is no option string. *)
Lemma argument_selects_nothing (a : action) (v : string) :
  is_argument v = true -> selects a v = false.
Proof.
  unfold is_argument, selects. intros H. apply andb_true_iff in H.
  destruct H as [_ H]. destruct (classify v); try discriminate H.
  reflexivity.
Qed.

Lemma action_eqb_refl (a : action) : action_eqb a a = true.
Proof.
  destruct a; reflexivity.
Qed.

(** What the consuming loop keeps: the left-over mark is never taken back,
    and while nothing is left over, each field of the state changes only
    through an option string of its own action. *)
Lemma consume_flags (n : nat) :
  forall argv st st',
    (List.length argv <= n)%nat ->
    consume argv st = inl st' ->
    (extras st = true -> extras st' = true)
    /\ (extras st' = false ->
        seen_restart st' = seen_restart st || existsb (selects Restart) argv
        /\ (existsb (selects SourcePath) argv = false ->
            seen_source st' = seen_source st)
        /\ (existsb (selects RemoteHost) argv = false ->
            seen_host st' = seen_host st)
        /\ (existsb (selects Username) argv = false ->
            seen_user st' = seen_user st)
        /\ existsb (selects Help) argv = false
        /\ ~ In "--" argv).
Proof.
  induction n as [| n IH]; intros [| s rest] st st' Hlen Hc;
    cbn [List.length] in Hlen; try lia.
  - inversion Hc; subst. split; [auto |]. intros _.
    cbn [existsb In]. rewrite orb_false_r. repeat split; auto.
  - inversion Hc; subst. split; [auto |]. intros _.
    cbn [existsb In]. rewrite orb_false_r. repeat split; auto.
  - cbn [consume] in Hc.
    destruct (String.eqb s "--") eqn:Esep.
    { inversion Hc; subst. split; [reflexivity |]. discriminate. }
    assert (Hsep : s <> "--").
    { intros E. subst s. discriminate Esep. }
    assert (Hrest : forall st0,
               consume rest st0 = inl st' ->
               (extras st0 = true -> extras st' = true)
               /\ (extras st' = false ->
                   seen_restart st' = seen_restart st0
                                      || existsb (selects Restart) rest
                   /\ (existsb (selects SourcePath) rest = false ->
                       seen_source st' = seen_source st0)
                   /\ (existsb (selects RemoteHost) rest = false ->
                       seen_host st' = seen_host st0)
                   /\ (existsb (selects Username) rest = false ->
                       seen_user st' = seen_user st0)
                   /\ existsb (selects Help) rest = false
                   /\ ~ In "--" rest))
      by (intros st0; apply IH; lia).
    cbn [existsb In]. unfold selects at 1 3 5 7 9.
    destruct (classify s) as [| [a |] short [e |] |] eqn:Ecl.
    + (* an argument nobody takes *)
      destruct (Hrest _ Hc) as [Hmono _].
      split; [intros _; apply Hmono; reflexivity |].
      intros Hex. rewrite Hmono in Hex by reflexivity. discriminate Hex.
    + (* a flag with a glued value *)
      destruct (takes_value a) eqn:Etv;
        [| destruct (short && nonempty e && all_h e); discriminate Hc].
      destruct (Hrest _ Hc) as [Hmono Hinv].
      split; [intros Hx; apply Hmono; destruct a; exact Hx |].
      intros Hex. destruct (Hinv Hex) as (Hr & Hs & Hh & Hu & Hhelp & Hdd).
      destruct a; try discriminate Etv; cbn [action_eqb orb store seen_restart seen_source seen_host
             seen_user extras] in *;
        (split; [exact Hr |]); (split; [first [exact Hs | discriminate] |]);
        (split; [first [exact Hh | discriminate] |]);
        (split; [first [exact Hu | discriminate] |]);
        (split; [exact Hhelp | tauto]).
    + (* a flag on its own *)
      destruct (takes_value a) eqn:Etv.
      * destruct rest as [| v rest']; [discriminate Hc |].
        destruct (is_argument v) eqn:Earg; [| discriminate Hc].
        assert (Hv : v <> "--").
        { intros E. subst v. discriminate Earg. }
        assert (Hrest' : (List.length rest' <= n)%nat)
          by (cbn [List.length] in Hlen; lia).
        destruct (IH rest' _ st' Hrest' Hc) as [Hmono Hinv].
        split; [intros Hx; apply Hmono; destruct a; exact Hx |].
        intros Hex. destruct (Hinv Hex) as (Hr & Hs & Hh & Hu & Hhelp & Hdd).
        cbn [existsb In]. rewrite !(argument_selects_nothing _ v Earg).
        destruct a; try discriminate Etv; cbn [action_eqb orb store seen_restart seen_source seen_host
             seen_user extras] in *;
          (split; [exact Hr |]); (split; [first [exact Hs | discriminate] |]);
          (split; [first [exact Hh | discriminate] |]);
          (split; [first [exact Hu | discriminate] |]);
          (split; [exact Hhelp | tauto]).
      * destruct a; try discriminate Etv; try discriminate Hc.
        destruct (Hrest _ Hc) as [Hmono Hinv].
        split; [intros Hx; apply Hmono; exact Hx |].
        intros Hex. destruct (Hinv Hex) as (Hr & Hs & Hh & Hu & Hhelp & Hdd).
        cbn [action_eqb orb store seen_restart seen_source seen_host
             seen_user extras] in *.
        split; [rewrite Hr, orb_true_r; reflexivity |].
        repeat (split; [assumption |]). tauto.
    + (* an option string the parser does not know *)
      destruct (Hrest _ Hc) as [Hmono _].
      split; [intros _; apply Hmono; reflexivity |].
      intros Hex. rewrite Hmono in Hex by reflexivity. discriminate Hex.
    + destruct (Hrest _ Hc) as [Hmono _].
      split; [intros _; apply Hmono; reflexivity |].
      intros Hex. rewrite Hmono in Hex by reflexivity. discriminate Hex.
    + discriminate Hc.
Qed.

(** X11.  What a successful parse says about the command line: it holds an
    option string for [--source-path] and one for [--remote-host]; the
    restart flag is on exactly when it holds one for [--restart]; without
    one for [--username] the user is [Administrator]; and it holds neither
    a help flag nor the separator [--]. *)
Theorem parsed_command_line (argv : list string) (ns : Namespace) :
  parse argv = Parsed ns ->
  existsb (selects SourcePath) argv = true
  /\ existsb (selects RemoteHost) argv = true
  /\ restart ns = existsb (selects Restart) argv
  /\ (existsb (selects Username) argv = false -> username ns = "Administrator")
  /\ existsb (selects Help) argv = false
  /\ ~ In "--" argv.
Proof.
  unfold parse. destruct (has_ambiguous argv); [discriminate |].
  destruct (consume argv initial) as [st | code] eqn:Hc; [| discriminate].
  destruct (seen_source st) as [src |] eqn:Hsrc; [| discriminate].
  destruct (seen_host st) as [host |] eqn:Hhost; [| discriminate].
  destruct (extras st) eqn:Hex; [discriminate |].
  intros H. inversion H; subst ns; clear H. cbn [restart username].
  destruct (@consume_flags (List.length argv) argv initial st
                           (Nat.le_refl _) Hc) as [_ Hinv].
  destruct (Hinv Hex) as (Hr & Hs & Hh & Hu & Hhelp & Hdd).
  cbn [initial seen_restart seen_source seen_host seen_user orb] in *.
  repeat split; try assumption.
  - destruct (existsb (selects SourcePath) argv); [reflexivity |].
    rewrite Hs in Hsrc by reflexivity. discriminate Hsrc.
  - destruct (existsb (selects RemoteHost) argv); [reflexivity |].
    rewrite Hh in Hhost by reflexivity. discriminate Hhost.
Qed.

Lemma parsed_command_line_witness :
  existsb (selects SourcePath) argv_restart = true
  /\ existsb (selects RemoteHost) argv_restart = true
  /\ restart args_restart = existsb (selects Restart) argv_restart
  /\ (existsb (selects Username) argv_restart = false ->
      username args_restart = "Administrator")
  /\ existsb (selects Help) argv_restart = false
  /\ ~ In "--" argv_restart.
Proof.
  exact (@parsed_command_line argv_restart args_restart eq_refl).
Defined.

(* ------------------------------------------------------------------ *)
(** ** Whose output is captured *)

Lemma probes_spawns (w : world) (a : list string) (cap : bool) :
  In (ESpawn a cap) (probes w) ->
  cap = true /\ (a = ssh_probe \/ a = scp_probe).
Proof.
  unfold probes. rewrite check_ssh_tools_cases.
  destruct (fst (run_command w ssh_probe true)) as [r1 | e1];
    [destruct (fst (run_command w scp_probe true)) as [r2 | e2];
     [destruct (negb (in_pair (code_of r1) 0 255));
      [| destruct (negb (in_pair (code_of r2) 0 1))] |] |];
    simpl; intros H;
    repeat (destruct H as [H | H]; [inversion H; auto |]);
    contradiction.
Qed.

(** Splits a hypothesis [In (ESpawn a cap) trace] over a trace given by a
    stage lemma and settles each case. *)
Ltac which_child H :=
  unfold upto_remote, upto_upload, configuration, usage_lines in H;
  cbn [map] in H;
  repeat (rewrite in_app_iff in H || cbn [In] in H);
  repeat match type of H with
         | _ \/ _ => destruct H as [H | H]
         end;
  try contradiction;
  try discriminate H;
  try (apply probes_spawns in H; left; exact H);
  try (inversion H; subst; right; split; [reflexivity |];
       unfold scp_argv, ssh_argv; eauto).

(** X12.  The output of a child is captured exactly for the two
    availability probes; the upload and the remote execution run with the
    terminal of the user, so their progress and password prompts are
    seen. *)
Theorem only_probes_are_captured
        (w : world) (argv : list string) (a : list string) (cap : bool) :
  In (ESpawn a cap) (events (script w argv)) ->
  (cap = true /\ (a = ["ssh"; "-V"] \/ a = ["scp"; "-h"]))
  \/ (cap = false
      /\ exists rest, a = "scp" :: "-r" :: rest \/ a = "ssh" :: "-t" :: rest).
Proof.
  destruct (ends_total w argv) as [e He]; destruct He as
      [ Hp | Hp | args Hp Hc | args Hp Hc | args f Hp Hc Hx
      | args Hp Hc Hx | args f Hp Hc Hx Hr | args source Hp Hc Hready Hu
      | args source up Hp Hc Hready Hu Hcode
      | args source Hp Hc Hready Hup Hs
      | args source remote Hp Hc Hready Hup Hs Hrc
      | args source remote Hp Hc Hready Hup Hs Hrc ].
  - erewrite script_parse_exit by eassumption. intros H. destruct H.
  - erewrite script_parse_exit by eassumption. intros H. destruct H.
  - erewrite script_tools_interrupted by eassumption. intros H.
    cbn [events snd] in H. which_child H.
  - erewrite script_tools_missing by eassumption. intros H.
    cbn [events snd] in H. which_child H.
  - erewrite script_exists_fault by eassumption. intros H.
    cbn [events snd] in H. which_child H.
  - erewrite script_source_missing by eassumption. intros H.
    cbn [events snd] in H. which_child H.
  - erewrite script_resolve_fault by eassumption. intros H.
    cbn [events snd] in H. which_child H.
  - erewrite script_copy_interrupted by eassumption. intros H.
    cbn [events snd] in H. which_child H.
  - erewrite script_copy_failed by eassumption. intros H.
    cbn [events snd] in H. which_child H.
  - erewrite script_remote_interrupted by eassumption. intros H.
    cbn [events snd] in H. which_child H.
  - erewrite script_remote_failed by eassumption. intros H.
    cbn [events snd] in H. which_child H.
  - erewrite script_success by eassumption. intros H.
    cbn [events snd] in H. which_child H.
Qed.

Lemma only_probes_are_captured_witness :
  (false = true /\ (scp_argv "/home/user/Boot" args_plain = ["ssh"; "-V"]
                    \/ scp_argv "/home/user/Boot" args_plain = ["scp"; "-h"]))
  \/ (false = false
      /\ exists rest, scp_argv "/home/user/Boot" args_plain
                      = "scp" :: "-r" :: rest
                      \/ scp_argv "/home/user/Boot" args_plain
                         = "ssh" :: "-t" :: rest).
Proof.
  apply (@only_probes_are_captured healthy argv_plain
           (scp_argv "/home/user/Boot" args_plain) false).
  vm_compute. tauto.
Defined.
